(** * rtl-detector.js: language-driven text direction

    A shallow embedding of [src/rtl-detector.js] and the properties of its
    classifier, appliers, reconcile routine and trigger wiring.

    Layout of the development:
    - [JsString]: the two string primitives the classifier uses
      ([toLowerCase], [split]);
    - the classifier [isRTLLanguage] over [RTL_LANGUAGES];
    - the document model (attribute list, class token set, element tree,
      selector control) and the effect monad [M] (state, call trace,
      exceptions);
    - the functions of the script, in source order;
    - the host's event delivery (timers, mutation records, events);
    - the theorems. *)

From Stdlib Require Import Bool List String Ascii NArith Arith Lia.
Import ListNotations.
Open Scope string_scope.

Set Warnings "-register-all".

(** ** String primitives *)

Module JsString.

(** A language code is a sequence of code units. The model covers the code
    units below 256 (Latin-1, which contains every BCP-47 tag), one per
    [ascii]; on that range [String.prototype.toLowerCase] maps A-Z and the
    accented capitals U+00C0-U+00DE (the sign U+00D7 apart) thirty-two places
    up and leaves the rest. *)
Definition lowerUnit (c : ascii) : ascii :=
  let n := N_of_ascii c in
  if ((65 <=? n) && (n <=? 90)
      || (192 <=? n) && (n <=? 222) && negb (n =? 215))%N
  then ascii_of_N (n + 32)
  else c.

Fixpoint toLowerCase (s : string) : string :=
  match s with
  | EmptyString => EmptyString
  | String c rest => String (lowerUnit c) (toLowerCase rest)
  end.

(** [s.split(sep)] for a one-unit separator: the pieces between the
    occurrences of [sep], in order; never empty ([''.split('-')] is ['']). *)
Fixpoint split (sep : ascii) (s : string) : list string :=
  match s with
  | EmptyString => [EmptyString]
  | String c rest =>
      if Ascii.eqb c sep then EmptyString :: split sep rest
      else match split sep rest with
           | [] => [String c EmptyString]
           | piece :: pieces => String c piece :: pieces
           end
  end.

(** The spec's words: the substring before the first [sep] (all of [s] when
    there is none). *)
Fixpoint beforeFirst (sep : ascii) (s : string) : string :=
  match s with
  | EmptyString => EmptyString
  | String c rest =>
      if Ascii.eqb c sep then EmptyString else String c (beforeFirst sep rest)
  end.

End JsString.

(** ** Classifier *)

Definition hyphen : ascii := "-"%char.

(** [const RTL_LANGUAGES = [...]] *)
Definition RTL_LANGUAGES : list string :=
  [ "ar"; "arc"; "dv"; "fa"; "ha"; "he"; "khw"; "ks"; "ku"; "ps"; "sd"; "ur";
    "uz"; "yi" ].

(** [Array.prototype.includes] at an element that may be [undefined]. *)
Definition includes (xs : list string) (x : option string) : bool :=
  match x with
  | None => false
  | Some s => existsb (String.eqb s) xs
  end.

(** [!lang] for a value that is [null] or a string. *)
Definition falsy (lang : option string) : bool :=
  match lang with
  | None => true
  | Some s => String.eqb s ""
  end.

(** [function isRTLLanguage(lang)] *)
Definition isRTLLanguage (lang : option string) : bool :=
  if falsy lang then false
  else
    match lang with
    | None => false
    | Some s =>
        let baseLang :=
          nth_error (JsString.split hyphen (JsString.toLowerCase s)) 0 in
        includes RTL_LANGUAGES baseLang
    end.

(** The spec's classifier, in its words: the verdicts, the fixed set of
    right-to-left primary subtags, the primary subtag of a code. *)
Inductive Verdict := RTL | LTR.

Definition rtlPrimarySubtags : list string :=
  [ "ar"; "arc"; "dv"; "fa"; "ha"; "he"; "khw"; "ks"; "ku"; "ps"; "sd"; "ur";
    "uz"; "yi" ].

Definition primarySubtag (code : string) : string :=
  JsString.beforeFirst hyphen (JsString.toLowerCase code).

Definition classify (code : option string) : Verdict :=
  match code with
  | None => LTR
  | Some s =>
      if string_dec s "" then LTR
      else if in_dec string_dec (primarySubtag s) rtlPrimarySubtags then RTL
      else LTR
  end.

Definition verdictOf (b : bool) : Verdict := if b then RTL else LTR.

(** ** Document model *)

(** An element's attribute list: [getAttribute] answers with the first
    attribute of that name or [null]; [setAttribute] changes that attribute's
    value in place, or appends a new attribute. *)
Definition Attrs := list (string * string).

Fixpoint getAttribute (name : string) (attrs : Attrs) : option string :=
  match attrs with
  | [] => None
  | (n, v) :: rest =>
      if String.eqb n name then Some v else getAttribute name rest
  end.

Fixpoint setAttribute (name value : string) (attrs : Attrs) : Attrs :=
  match attrs with
  | [] => [(name, value)]
  | (n, v) :: rest =>
      if String.eqb n name then (n, value) :: rest
      else (n, v) :: setAttribute name value rest
  end.

(** [classList]: an ordered token set. [add] appends a token that is not
    there; [remove] drops it. *)
Definition contains (token : string) (tokens : list string) : bool :=
  existsb (String.eqb token) tokens.

Definition tokenAdd (token : string) (tokens : list string) : list string :=
  if contains token tokens then tokens else tokens ++ [token].

Definition tokenRemove (token : string) (tokens : list string) : list string :=
  filter (fun t => negb (String.eqb t token)) tokens.

(** [document.documentElement]: its attributes other than [class], and the
    token set of its [class]. *)
Record Element := mkElement {
  attributes : Attrs;
  classList : list string
}.

(** The elements below the root, each with its class tokens. *)
Inductive Node := Elem (classes : list string) (children : list Node).

(** The closures the script hands to the host, by the place they are
    written. *)
Inductive Callback :=
| CbInitRTLDetection        (* initRTLDetection, as a DOMContentLoaded listener *)
| CbSwitcherSetup           (* the DOMContentLoaded listener that looks up the selector *)
| CbSwitcherChange          (* the selector's change listener *)
| CbLangObserver            (* the MutationObserver callback of observeLanguageChanges *)
| CbBodyObserver            (* the MutationObserver callback of observeGoogleTranslate *)
| CbSweep                   (* the setInterval callback *)
| CbDetectAndApplyLayout.   (* detectAndApplyLayout, as a setTimeout callback *)

(** The optional selector control [#languageSwitcher]. *)
Record Select := mkSelect {
  value : string;
  changeListeners : list Callback
}.

(** Where the page is in its loading when the script runs.
    [document.readyState] is ['loading'] while parsing, ['interactive'] from
    the end of parsing (DOMContentLoaded is dispatched in that state, after
    the deferred scripts) and ['complete'] after the load event. *)
Inductive LoadPhase :=
| Parsing
| ParsedBeforeDOMContentLoaded
| ParsedAfterDOMContentLoaded
| Loaded.

Definition readyStateOf (p : LoadPhase) : string :=
  match p with
  | Parsing => "loading"
  | ParsedBeforeDOMContentLoaded | ParsedAfterDOMContentLoaded => "interactive"
  | Loaded => "complete"
  end.

Definition domContentLoadedPending (p : LoadPhase) : bool :=
  match p with
  | Parsing | ParsedBeforeDOMContentLoaded => true
  | _ => false
  end.

Record Document := mkDocument {
  phase : LoadPhase;
  documentElement : Element;
  descendants : list Node;
  languageSwitcher : option Select;
  listeners : list (string * Callback)   (* document.addEventListener *)
}.

Definition readyState (d : Document) : string := readyStateOf (phase d).

(** [document.querySelector('.cls')]: the first element, in tree order from
    the root, that carries the class; [null] when there is none. Only class
    selectors are modelled. *)
Fixpoint findClass (cls : string) (n : Node) : option Node :=
  match n with
  | Elem classes children =>
      if contains cls classes then Some n
      else
        (fix firstOf (ns : list Node) : option Node :=
           match ns with
           | [] => None
           | m :: ms =>
               match findClass cls m with
               | Some hit => Some hit
               | None => firstOf ms
               end
           end) children
  end.

Definition rootNode (d : Document) : Node :=
  Elem (classList (documentElement d)) (descendants d).

Definition querySelector (selector : string) (d : Document) : option Node :=
  match selector with
  | String "."%char cls => findClass cls (rootNode d)
  | _ => None
  end.

(** [document.getElementById]: the selector control is the one element the
    script looks up by id. *)
Definition getElementById (id : string) (d : Document) : option Select :=
  if String.eqb id "languageSwitcher" then languageSwitcher d else None.

(** An element of the tree carries the class. *)
Inductive HasClass (cls : string) : Node -> Prop :=
| HasClass_here classes children :
    contains cls classes = true -> HasClass cls (Elem classes children)
| HasClass_below classes children child :
    In child children -> HasClass cls child ->
    HasClass cls (Elem classes children).

(** ** The host environment *)

(** The translation hook the host may register as [window.translatePage]: it
    receives the language code, may change the document, and returns or
    throws. *)
Definition Hook := option string -> Document -> Document * option string.

(** The value of [window.translatePage]. *)
Inductive Global :=
| Undefined
| NotAFunction
| JsFunction (f : Hook).

(** [typeof v === 'function'] *)
Definition isFunction (v : Global) : bool :=
  match v with
  | JsFunction _ => true
  | _ => false
  end.

Inductive MutationType := attributesT | childListT | characterDataT.

Record MutationRecord := mkMutation {
  type : MutationType;
  attributeName : option string
}.

Inductive Target := RootTarget | BodyTarget.

(** The options of [MutationObserver.observe]. *)
Record ObserveOptions := mkOptions {
  attributesOpt : bool;
  attributeFilter : option (list string);
  childList : bool;
  subtree : bool
}.

Record Observer := mkObserver {
  callback : Callback;
  target : Target;
  options : ObserveOptions
}.

(** The named functions of the script. *)
Inductive Fn :=
| F_isRTLLanguage
| F_applyRTL
| F_applyLTR
| F_detectAndApplyLayout
| F_observeLanguageChanges
| F_observeGoogleTranslate
| F_initRTLDetection.

(** What a run leaves behind besides the document: the calls of the script's
    functions, the lines of [console.log] and the calls of the hook, in the
    order they happen. *)
Inductive Event :=
| Called (f : Fn)
| Logged (args : list (option string))
| Hooked (arg : option string).

Record World := mkWorld {
  document : Document;
  translatePage : Global;                 (* window.translatePage *)
  RTLDetector : option (list Fn);         (* window.RTLDetector *)
  observers : list Observer;              (* MutationObserver registrations *)
  timeouts : list (Callback * nat);       (* pending setTimeout calls *)
  intervals : list (Callback * nat);      (* running setInterval timers *)
  trace : list Event
}.

(** ** Effects: state, and exceptions that leave the state as it is *)

Inductive Completion (A : Type) :=
| Normal (a : A)
| Throw (e : string).

Arguments Normal {A} a.
Arguments Throw {A} e.

Definition M (A : Type) := World -> World * Completion A.

Definition ret {A : Type} (a : A) : M A := fun w => (w, Normal a).

Definition bind {A B : Type} (m : M A) (k : A -> M B) : M B :=
  fun w =>
    match m w with
    | (w', Normal a) => k a w'
    | (w', Throw e) => (w', Throw e)
    end.

Declare Scope js_scope.
Delimit Scope js_scope with js.
Notation "x <- m ;; k" := (bind m (fun x => k))
  (at level 61, m at next level, right associativity) : js_scope.
Notation "m ;; k" := (bind m (fun _ => k))
  (at level 61, right associativity) : js_scope.
Open Scope js_scope.

Definition skip : M unit := ret tt.

Definition getDocument : M Document := fun w => (w, Normal (document w)).

Definition withDocument (d : Document) (w : World) : World :=
  mkWorld d (translatePage w) (RTLDetector w) (observers w) (timeouts w)
    (intervals w) (trace w).

Definition withElement (e : Element) (d : Document) : Document :=
  mkDocument (phase d) e (descendants d) (languageSwitcher d) (listeners d).

Definition setDocument (d : Document) : M unit :=
  fun w => (withDocument d w, Normal tt).

Definition getHtml : M Element :=
  fun w => (w, Normal (documentElement (document w))).

Definition modifyHtml (f : Element -> Element) : M unit :=
  fun w =>
    (withDocument (withElement (f (documentElement (document w))) (document w)) w,
     Normal tt).

Definition emit (e : Event) : M unit :=
  fun w =>
    (mkWorld (document w) (translatePage w) (RTLDetector w) (observers w)
       (timeouts w) (intervals w) (trace w ++ [e]),
     Normal tt).

Definition console_log (args : list (option string)) : M unit :=
  emit (Logged args).

(** [html.setAttribute(name, value)] *)
Definition html_setAttribute (name v : string) : M unit :=
  modifyHtml (fun html => mkElement (setAttribute name v (attributes html)) (classList html)).

(** [html.classList.add(token)], [html.classList.remove(token)] *)
Definition html_classList_add (token : string) : M unit :=
  modifyHtml (fun html => mkElement (attributes html) (tokenAdd token (classList html))).

Definition html_classList_remove (token : string) : M unit :=
  modifyHtml (fun html => mkElement (attributes html) (tokenRemove token (classList html))).

Definition getTranslatePage : M Global :=
  fun w => (w, Normal (translatePage w)).

(** Calling the hook: it runs on the document and may throw. *)
Definition callHook (f : Hook) (arg : option string) : M unit :=
  emit (Hooked arg) ;;
  fun w =>
    let (d, thrown) := f arg (document w) in
    (withDocument d w,
     match thrown with
     | None => Normal tt
     | Some e => Throw e
     end).

Definition observe (cb : Callback) (t : Target) (o : ObserveOptions) : M unit :=
  fun w =>
    (mkWorld (document w) (translatePage w) (RTLDetector w)
       (observers w ++ [mkObserver cb t o]) (timeouts w) (intervals w) (trace w),
     Normal tt).

Definition setTimeout (cb : Callback) (ms : nat) : M unit :=
  fun w =>
    (mkWorld (document w) (translatePage w) (RTLDetector w) (observers w)
       (timeouts w ++ [(cb, ms)]) (intervals w) (trace w),
     Normal tt).

Definition setInterval (cb : Callback) (ms : nat) : M unit :=
  fun w =>
    (mkWorld (document w) (translatePage w) (RTLDetector w) (observers w)
       (timeouts w) (intervals w ++ [(cb, ms)]) (trace w),
     Normal tt).

Definition document_addEventListener (ty : string) (cb : Callback) : M unit :=
  fun w =>
    let d := document w in
    (withDocument
       (mkDocument (phase d) (documentElement d) (descendants d)
          (languageSwitcher d) (listeners d ++ [(ty, cb)])) w,
     Normal tt).

(** [languageSwitcher.addEventListener('change', cb)], on the control the
    lookup found. *)
Definition switcher_addEventListener (cb : Callback) : M unit :=
  fun w =>
    let d := document w in
    (withDocument
       (mkDocument (phase d) (documentElement d) (descendants d)
          (option_map (fun s => mkSelect (value s) (changeListeners s ++ [cb]))
             (languageSwitcher d))
          (listeners d)) w,
     Normal tt).

Definition exportRTLDetector (fs : list Fn) : M unit :=
  fun w =>
    (mkWorld (document w) (translatePage w) (Some fs) (observers w)
       (timeouts w) (intervals w) (trace w),
     Normal tt).

(** [mutations.forEach(f)] *)
Fixpoint forEach {A : Type} (xs : list A) (f : A -> M unit) : M unit :=
  match xs with
  | [] => skip
  | x :: rest => f x ;; forEach rest f
  end.

(** [a === b] on values that are [null] or strings. *)
Definition strictEq (a b : option string) : bool :=
  match a, b with
  | None, None => true
  | Some x, Some y => String.eqb x y
  | _, _ => false
  end.

(** ** The script, in source order *)

(** [function applyRTL()] *)
Definition applyRTL : M unit :=
  emit (Called F_applyRTL) ;;
  html_setAttribute "dir" "rtl" ;;
  html_classList_add "rtl-mode" ;;
  console_log [Some "RTL layout applied"].

(** [function applyLTR()] *)
Definition applyLTR : M unit :=
  emit (Called F_applyLTR) ;;
  html_setAttribute "dir" "ltr" ;;
  html_classList_remove "rtl-mode" ;;
  console_log [Some "LTR layout applied"].

(** [function detectAndApplyLayout()] *)
Definition detectAndApplyLayout : M unit :=
  emit (Called F_detectAndApplyLayout) ;;
  html <- getHtml ;;
  let currentLang := getAttribute "lang" (attributes html) in
  (if isRTLLanguage currentLang then applyRTL else applyLTR) ;;
  hook <- getTranslatePage ;;
  match hook with
  | JsFunction f => callHook f currentLang
  | _ => skip
  end.

(** The test of the attribute observer:
    [mutation.type === 'attributes' && mutation.attributeName === 'lang']. *)
Definition isLangMutation (mutation : MutationRecord) : bool :=
  match type mutation with
  | attributesT => strictEq (attributeName mutation) (Some "lang")
  | _ => false
  end.

(** The callback of [observeLanguageChanges]'s observer. *)
Definition langObserverCallback (mutations : list MutationRecord) : M unit :=
  forEach mutations (fun mutation =>
    if isLangMutation mutation then
      html <- getHtml ;;
      console_log [Some "Language changed to:"; getAttribute "lang" (attributes html)] ;;
      detectAndApplyLayout
    else skip).

(** [function observeLanguageChanges()] *)
Definition observeLanguageChanges : M unit :=
  emit (Called F_observeLanguageChanges) ;;
  observe CbLangObserver RootTarget
    {| attributesOpt := true; attributeFilter := Some ["lang"];
       childList := false; subtree := false |} ;;
  console_log [Some "Language change observer started"].

(** The callback of [observeGoogleTranslate]'s observer; it takes no
    argument. *)
Definition bodyObserverCallback : M unit :=
  d <- getDocument ;;
  let translateElement := querySelector ".goog-te-banner-frame" d in
  match translateElement with
  | Some _ => setTimeout CbDetectAndApplyLayout 500
  | None => skip
  end.

(** [function observeGoogleTranslate()] *)
Definition observeGoogleTranslate : M unit :=
  emit (Called F_observeGoogleTranslate) ;;
  observe CbBodyObserver BodyTarget
    {| attributesOpt := false; attributeFilter := None;
       childList := true; subtree := true |}.

(** The callback of [setInterval] in [initRTLDetection]: one sweep tick. *)
Definition sweep : M unit :=
  html <- getHtml ;;
  let lang := getAttribute "lang" (attributes html) in
  let dir := getAttribute "dir" (attributes html) in
  let shouldBeRTL := isRTLLanguage lang in
  if shouldBeRTL && negb (strictEq dir (Some "rtl")) then applyRTL
  else if negb shouldBeRTL && strictEq dir (Some "rtl") then applyLTR
  else skip.

(** [function initRTLDetection()] *)
Definition initRTLDetection : M unit :=
  emit (Called F_initRTLDetection) ;;
  console_log [Some "Initializing RTL auto-detection..."] ;;
  detectAndApplyLayout ;;
  observeLanguageChanges ;;
  observeGoogleTranslate ;;
  setInterval CbSweep 1000 ;;
  console_log [Some "RTL auto-detection initialized successfully"].

(** The selector's change listener; [this] is the control. *)
Definition switcherChange (this : Select) : M unit :=
  let selectedLang := value this in
  html_setAttribute "lang" selectedLang ;;
  console_log [Some "Language manually switched to:"; Some selectedLang].

(** The DOMContentLoaded listener that sets the switcher up. *)
Definition switcherSetup : M unit :=
  d <- getDocument ;;
  match getElementById "languageSwitcher" d with
  | Some _ =>
      switcher_addEventListener CbSwitcherChange ;;
      console_log [Some "Language switcher initialized"]
  | None => skip
  end.

(** The script's top level. *)
Definition script : M unit :=
  d <- getDocument ;;
  (if String.eqb (readyState d) "loading"
   then document_addEventListener "DOMContentLoaded" CbInitRTLDetection
   else initRTLDetection) ;;
  document_addEventListener "DOMContentLoaded" CbSwitcherSetup ;;
  exportRTLDetector [F_isRTLLanguage; F_applyRTL; F_applyLTR; F_detectAndApplyLayout].

(** ** The host: how the callbacks get called *)

(** What the host passes to a callback. *)
Record Args := mkArgs {
  mutationsArg : list MutationRecord;
  thisArg : option Select
}.

Definition noArgs : Args := mkArgs [] None.

Definition call (cb : Callback) (args : Args) : M unit :=
  match cb with
  | CbInitRTLDetection => initRTLDetection
  | CbSwitcherSetup => switcherSetup
  | CbSwitcherChange =>
      match thisArg args with
      | Some this => switcherChange this
      | None => skip
      end
  | CbLangObserver => langObserverCallback (mutationsArg args)
  | CbBodyObserver => bodyObserverCallback
  | CbSweep => sweep
  | CbDetectAndApplyLayout => detectAndApplyLayout
  end.

(** A listener or timer callback that throws is reported by the host and
    does not stop the callbacks after it. *)
Definition reported (m : M unit) : M unit :=
  fun w => (fst (m w), Normal tt).

(** Dispatch of DOMContentLoaded to the document's listeners. *)
Definition dispatchDOMContentLoaded : M unit :=
  d <- getDocument ;;
  setDocument (mkDocument ParsedAfterDOMContentLoaded (documentElement d)
                 (descendants d) (languageSwitcher d) (listeners d)) ;;
  forEach (listeners d) (fun l =>
    if String.eqb (fst l) "DOMContentLoaded"
    then reported (call (snd l) noArgs)
    else skip).

(** The page's start: the script runs (an exception at its top level ends
    it), and DOMContentLoaded follows if it had not been dispatched yet. *)
Definition startup : M unit :=
  d <- getDocument ;;
  reported script ;;
  if domContentLoadedPending (phase d) then dispatchDOMContentLoaded else skip.

(** The user picks [v] in the selector: its value changes and the change
    event goes to its listeners. *)
Definition userSelects (v : string) : M unit :=
  d <- getDocument ;;
  match languageSwitcher d with
  | None => skip
  | Some ctl =>
      let ctl' := mkSelect v (changeListeners ctl) in
      setDocument (mkDocument (phase d) (documentElement d) (descendants d)
                     (Some ctl') (listeners d)) ;;
      forEach (changeListeners ctl) (fun cb =>
        reported (call cb (mkArgs [] (Some ctl'))))
  end.

(** The records the host queues for an observer, by its options. *)
Definition observed (o : ObserveOptions) (r : MutationRecord) : bool :=
  match type r with
  | attributesT =>
      attributesOpt o &&
      match attributeFilter o, attributeName r with
      | None, _ => true
      | Some names, Some n => contains n names
      | Some _, None => false
      end
  | childListT => childList o
  | characterDataT => false
  end.

(** Delivery of a batch of mutations of [t] to the observers registered on
    it: each gets the records its options select, if there are any. *)
Definition deliver (t : Target) (batch : list MutationRecord) : M unit :=
  fun w =>
    forEach (observers w) (fun o =>
      match t, target o with
      | RootTarget, RootTarget | BodyTarget, BodyTarget =>
          match filter (observed (options o)) batch with
          | [] => skip
          | records => reported (call (callback o) (mkArgs records None))
          end
      | _, _ => skip
      end) w.

(** An external tool writes the root's language attribute. *)
Definition externalSetLang (v : string) : M unit :=
  html_setAttribute "lang" v.

(** An external tool writes any attribute of the root. *)
Definition externalSetAttribute (name v : string) : M unit :=
  html_setAttribute name v.

(** The next pending timeout fires: it is removed (one shot) and its
    callback runs. *)
Definition fireTimeout : M unit :=
  fun w =>
    match timeouts w with
    | [] => (w, Normal tt)
    | (cb, _) :: rest =>
        reported (call cb noArgs)
          (mkWorld (document w) (translatePage w) (RTLDetector w) (observers w)
             rest (intervals w) (trace w))
    end.

(** Running a computation for its final world and completion. *)
Definition run {A : Type} (m : M A) (w : World) : World * Completion A := m w.
Definition exec {A : Type} (m : M A) (w : World) : World := fst (m w).
Definition completion {A : Type} (m : M A) (w : World) : Completion A := snd (m w).

(** [n] sweep ticks in a row. *)
Fixpoint sweeps (n : nat) : M unit :=
  match n with
  | O => skip
  | S k => sweep ;; sweeps k
  end.

(** The observable state: the root element, its language and direction
    attributes, and the marker class. *)
Definition root (w : World) : Element := documentElement (document w).
Definition langOf (w : World) : option string := getAttribute "lang" (attributes (root w)).
Definition dirOf (w : World) : option string := getAttribute "dir" (attributes (root w)).
Definition marked (w : World) : bool := contains "rtl-mode" (classList (root w)).

(** The events of [m]'s run from [w]: what it appends to the trace. *)
Definition events {A : Type} (m : M A) (w : World) : list Event :=
  skipn (List.length (trace w)) (trace (exec m w)).

(** The world without its trace: the state proper. *)
Definition untraced (w : World) : World :=
  mkWorld (document w) (translatePage w) (RTLDetector w) (observers w)
    (timeouts w) (intervals w) [].

(** Direction and marker agree with the classifier's verdict. *)
Definition directionCorrect (w : World) : Prop :=
  dirOf w = Some "rtl" <-> isRTLLanguage (langOf w) = true.

Definition markerCorrect (w : World) : Prop :=
  marked w = isRTLLanguage (langOf w).

(** What the appliers make of the root element. *)
Definition rtlElement (e : Element) : Element :=
  mkElement (setAttribute "dir" "rtl" (attributes e)) (tokenAdd "rtl-mode" (classList e)).

Definition ltrElement (e : Element) : Element :=
  mkElement (setAttribute "dir" "ltr" (attributes e)) (tokenRemove "rtl-mode" (classList e)).

(** The world with another root element and more events. *)
Definition updated (e : Element) (evs : list Event) (w : World) : World :=
  mkWorld (withElement e (document w)) (translatePage w) (RTLDetector w)
    (observers w) (timeouts w) (intervals w) (trace w ++ evs).

Definition rtlEvents : list Event :=
  [Called F_applyRTL; Logged [Some "RTL layout applied"]].

Definition ltrEvents : list Event :=
  [Called F_applyLTR; Logged [Some "LTR layout applied"]].

(** Sample pages: a loaded document with the given root attributes and
    class tokens, nothing below the root, no selector, no hook. *)
Definition pageWith (attrs : Attrs) (tokens : list string) : World :=
  mkWorld (mkDocument Loaded (mkElement attrs tokens) [] None [])
    Undefined None [] [] [] [].

(** Arabic, direction rtl, marker there. *)
Definition arabicPage : World :=
  pageWith [("lang", "ar"); ("dir", "rtl")] ["rtl-mode"].

(** English, direction ltr, no marker. *)
Definition englishPage : World :=
  pageWith [("lang", "en"); ("dir", "ltr")] [].

(** Arabic and direction rtl, but the marker was taken away. *)
Definition arabicUnmarkedPage : World :=
  pageWith [("lang", "ar"); ("dir", "rtl")] ["dark"].

(** English and direction ltr, but the marker was put there. *)
Definition englishMarkedPage : World :=
  pageWith [("lang", "en"); ("dir", "ltr")] ["rtl-mode"].

(** The world in which reconcile reaches its hook test: the call is on the
    trace and the applier for the verdict has run. *)
Definition applied (w : World) : World :=
  if isRTLLanguage (langOf w)
  then updated (rtlElement (root w)) (Called F_detectAndApplyLayout :: rtlEvents) w
  else updated (ltrElement (root w)) (Called F_detectAndApplyLayout :: ltrEvents) w.

(** A hook that fails at once, and a page that registers it. *)
Definition failingHook : Hook :=
  fun _ d => (d, Some "translation failed").

Definition failingHookPage : World :=
  mkWorld (mkDocument Loaded (mkElement [("lang", "ar")] []) [] None [])
    (JsFunction failingHook) None [] [] [] [].

(** A hook that returns, leaving the document alone. *)
Definition quietHook : Hook := fun _ d => (d, None).

(** The number of calls of reconcile among some events. *)
Definition isReconcileCall (e : Event) : bool :=
  match e with
  | Called F_detectAndApplyLayout => true
  | _ => false
  end.

Definition reconciles (evs : list Event) : nat :=
  List.length (filter isReconcileCall evs).

(** The events of one call of reconcile from [w]. *)
Definition reconcileEvents (w : World) : list Event :=
  (Called F_detectAndApplyLayout
     :: (if isRTLLanguage (langOf w) then rtlEvents else ltrEvents)
     ++ (if isFunction (translatePage w) then [Hooked (langOf w)] else []))%list.

(** Mutation records: a change of the language attribute, of the class
    attribute, and an insertion of children. *)
Definition langChange : MutationRecord := mkMutation attributesT (Some "lang").
Definition classChange : MutationRecord := mkMutation attributesT (Some "class").
Definition childInsertion : MutationRecord := mkMutation childListT None.

(** The options [observeLanguageChanges] registers its observer with. *)
Definition langObserverOptions : ObserveOptions :=
  mkOptions true (Some ["lang"]) false false.

(** One step of the observer's loop at a language mutation: a log line, then
    reconcile. *)
Definition onLangMutation : M unit :=
  html <- getHtml ;;
  console_log [Some "Language changed to:"; getAttribute "lang" (attributes html)] ;;
  detectAndApplyLayout.

Definition logged (w : World) : World :=
  updated (root w) [Logged [Some "Language changed to:"; langOf w]] w.

(** The world with other pending timeouts. *)
Definition withTimeouts (ts : list (Callback * nat)) (w : World) : World :=
  mkWorld (document w) (translatePage w) (RTLDetector w) (observers w)
    ts (intervals w) (trace w).

(** The class of the translation widget's frame. *)
Definition widgetClass : string := "goog-te-banner-frame".

(** A page with the widget's frame deep in the body, and one without. *)
Definition widgetPage : World :=
  mkWorld
    (mkDocument Loaded (mkElement [("lang", "ar")] [])
       [Elem [] []; Elem ["skiptranslate"] [Elem ["goog-te-banner-frame"; "skiptranslate"] []]]
       None [])
    Undefined None [] [] [] [].

Definition plainPage : World :=
  mkWorld
    (mkDocument Loaded (mkElement [("lang", "ar")] [])
       [Elem [] []; Elem ["container"] [Elem ["row"] []]]
       None [])
    Undefined None [] [] [] [].

(** A page with the selector control, English selected, at a given point of
    its loading; nothing registered yet. *)
Definition switcherPage (p : LoadPhase) : World :=
  mkWorld
    (mkDocument p (mkElement [("lang", "en")] []) [] (Some (mkSelect "en" [])) [])
    Undefined None [] [] [] [].

(** [initRTLDetection] around its call of reconcile: the world in which the
    call is made, and what the rest of the function adds when the call
    returns. *)
Definition started (w : World) : World :=
  updated (root w)
    [Called F_initRTLDetection; Logged [Some "Initializing RTL auto-detection..."]] w.

Definition bodyObserverOptions : ObserveOptions :=
  mkOptions false None true true.

Definition installed (w : World) : World :=
  mkWorld (document w) (translatePage w) (RTLDetector w)
    (observers w ++ [mkObserver CbLangObserver RootTarget langObserverOptions;
                     mkObserver CbBodyObserver BodyTarget bodyObserverOptions])
    (timeouts w)
    (intervals w ++ [(CbSweep, 1000)])
    (trace w ++ [Called F_observeLanguageChanges;
                 Logged [Some "Language change observer started"];
                 Called F_observeGoogleTranslate;
                 Logged [Some "RTL auto-detection initialized successfully"]]).

(** Pages for the scenarios: English or Arabic at the root, a hook that
    returns, the script run during parsing. *)
Definition scenarioPage (lang : string) (below : list Node) : World :=
  mkWorld (mkDocument Parsing (mkElement [("lang", lang)] []) below None [])
    (JsFunction quietHook) None [] [] [] [].

(** Marker and direction are in step: the marker is there exactly when the
    direction attribute is rtl. *)
Definition inStep (w : World) : Prop :=
  marked w = strictEq (dirOf w) (Some "rtl").

(** The number of calls of [initRTLDetection] among some events. *)
Definition isInitCall (e : Event) : bool :=
  match e with
  | Called F_initRTLDetection => true
  | _ => false
  end.

Definition initCalls (evs : list Event) : nat :=
  List.length (filter isInitCall evs).

(** The two observers [initRTLDetection] registers. *)
Definition scriptObservers : list Observer :=
  [mkObserver CbLangObserver RootTarget langObserverOptions;
   mkObserver CbBodyObserver BodyTarget bodyObserverOptions].

(** What [window.RTLDetector] holds once the script has run. *)
Definition exportedFunctions : list Fn :=
  [F_isRTLLanguage; F_applyRTL; F_applyLTR; F_detectAndApplyLayout].

(** A page still being parsed that registers the failing hook, and the same
    page already loaded. *)
Definition failingHookPageAt (p : LoadPhase) : World :=
  mkWorld (mkDocument p (mkElement [("lang", "ar")] []) [] None [])
    (JsFunction failingHook) None [] [] [] [].

(** An Arabic page whose direction was forced to ltr. *)
Definition arabicForcedLtrPage : World :=
  pageWith [("lang", "ar"); ("dir", "ltr")] [].

(** The world when DOMContentLoaded is dispatched: the document is parsed. *)
Definition atDOMContentLoaded (w : World) : World :=
  withDocument
    (mkDocument ParsedAfterDOMContentLoaded (documentElement (document w))
       (descendants (document w)) (languageSwitcher (document w))
       (listeners (document w))) w.

(** What the top level adds after [initRTLDetection] has returned: the
    listener for the switcher setup, and the export. *)
Definition lateRegistered (w : World) : World :=
  mkWorld
    (mkDocument (phase (document w)) (documentElement (document w))
       (descendants (document w)) (languageSwitcher (document w))
       (listeners (document w) ++ [("DOMContentLoaded", CbSwitcherSetup)]))
    (translatePage w) (Some exportedFunctions)
    (observers w) (timeouts w) (intervals w) (trace w).

(** The page after its start, against the page before: the root is what
    reconcile makes of it, initRTLDetection ran once and left its two
    observers and its timer, RTLDetector is exported, and the selector (if
    there is one) has the change handler exactly when [attached]. *)
Definition startedUp (attached : bool) (w after : World) : Prop :=
  root after = root (applied w)
  /\ observers after = (observers w ++ scriptObservers)%list
  /\ intervals after = (intervals w ++ [(CbSweep, 1000)])%list
  /\ timeouts after = timeouts w
  /\ RTLDetector after = Some exportedFunctions
  /\ option_map changeListeners (languageSwitcher (document after))
     = option_map
         (fun ctl => changeListeners ctl
                       ++ if attached then [CbSwitcherChange] else [])%list
         (languageSwitcher (document w))
  /\ exists evs : list Event,
       trace after = (trace w ++ evs)%list /\ initCalls evs = 1.

(** A record of children inserted or removed. *)
Definition isChildListMutation (r : MutationRecord) : bool :=
  match type r with
  | childListT => true
  | _ => false
  end.

(** The page with the widget's frame, once the two observers are
    registered. *)
Definition observedWidgetPage : World :=
  mkWorld (document widgetPage) Undefined None scriptObservers [] [] [].

(** * Properties *)

(** ** Strings *)

Section StringLemmas.

Variable sep : ascii.

Lemma split_nonempty (s : string) : JsString.split sep s <> [].
Proof.
  destruct s as [|c rest]; simpl; [discriminate|].
  destruct (Ascii.eqb c sep); [discriminate|].
  destruct (JsString.split sep rest); discriminate.
Qed.

(** [s.split(sep)[0]] is the part of [s] before the first [sep]. *)
Lemma split_head (s : string) :
  nth_error (JsString.split sep s) 0 = Some (JsString.beforeFirst sep s).
Proof.
  induction s as [|c rest IH]; simpl; [reflexivity|].
  destruct (Ascii.eqb c sep); [reflexivity|].
  destruct (JsString.split sep rest) as [|piece pieces]; simpl in *.
  - discriminate.
  - now inversion IH.
Qed.

(** [beforeFirst] cuts [s] at its first [sep]: either [s] holds no [sep]
    and is returned whole, or [s] is the result, [sep] and a rest. *)
Lemma beforeFirst_cut (s : string) :
  JsString.beforeFirst sep s = s
  \/ exists rest, s = JsString.beforeFirst sep s ++ String sep rest.
Proof.
  induction s as [|c r IH]; simpl; [now left|].
  destruct (Ascii.eqb c sep) eqn:E.
  - right. apply Ascii.eqb_eq in E. subst c. now exists r.
  - destruct IH as [IH|[rest IH]].
    + left. now rewrite IH.
    + right. exists rest. simpl. now rewrite <- IH.
Qed.

End StringLemmas.

Lemma lowerUnit_idem (c : ascii) :
  JsString.lowerUnit (JsString.lowerUnit c) = JsString.lowerUnit c.
Proof.
  destruct c as [[] [] [] [] [] [] [] []]; reflexivity.
Qed.

Lemma toLowerCase_idem (s : string) :
  JsString.toLowerCase (JsString.toLowerCase s) = JsString.toLowerCase s.
Proof.
  induction s as [|c rest IH]; simpl; [reflexivity|].
  now rewrite lowerUnit_idem, IH.
Qed.

Lemma existsb_eqb_In (x : string) (xs : list string) :
  existsb (String.eqb x) xs = true <-> In x xs.
Proof.
  rewrite existsb_exists. split.
  - intros [y [Hin Heq]]. apply String.eqb_eq in Heq. now subst.
  - intros Hin. exists x. split; [assumption | apply String.eqb_refl].
Qed.

(** ** Classifier *)

Lemma falsy_spec (lang : option string) :
  falsy lang = true <-> lang = None \/ lang = Some "".
Proof.
  destruct lang as [s|]; simpl.
  - rewrite String.eqb_eq. split.
    + intros ->. now right.
    + intros [H|H]; [discriminate | now inversion H].
  - split; [now left | reflexivity].
Qed.

Lemma source_set_is_spec_set : RTL_LANGUAGES = rtlPrimarySubtags.
Proof. reflexivity. Qed.

(** The source's classifier computes the spec's. *)
Lemma isRTLLanguage_classify (lang : option string) :
  verdictOf (isRTLLanguage lang) = classify lang.
Proof.
  destruct lang as [s|]; [|reflexivity].
  unfold isRTLLanguage, classify, falsy.
  destruct (string_dec s "") as [->|Hne]; [reflexivity|].
  apply String.eqb_neq in Hne. rewrite Hne.
  cbv zeta. rewrite split_head. unfold includes.
  fold (primarySubtag s). rewrite source_set_is_spec_set.
  destruct (in_dec string_dec (primarySubtag s) rtlPrimarySubtags) as [Hin|Hout].
  - apply existsb_eqb_In in Hin. now rewrite Hin.
  - destruct (existsb (String.eqb (primarySubtag s)) rtlPrimarySubtags) eqn:E;
      [|reflexivity].
    apply existsb_eqb_In in E. contradiction.
Qed.

Lemma isRTLLanguage_true_iff (lang : option string) :
  isRTLLanguage lang = true <-> classify lang = RTL.
Proof.
  rewrite <- isRTLLanguage_classify.
  destruct (isRTLLanguage lang); simpl; split; congruence.
Qed.

(** The verdict depends on the lower-cased primary subtag only. *)
Lemma isRTLLanguage_by_subtag (s t : string) :
  s <> "" -> t <> "" -> primarySubtag s = primarySubtag t ->
  isRTLLanguage (Some s) = isRTLLanguage (Some t).
Proof.
  intros Hs Ht Heq.
  assert (H : verdictOf (isRTLLanguage (Some s)) = verdictOf (isRTLLanguage (Some t))).
  { rewrite !isRTLLanguage_classify. unfold classify.
    destruct (string_dec s "") as [|_]; [contradiction|].
    destruct (string_dec t "") as [|_]; [contradiction|].
    now rewrite Heq. }
  destruct (isRTLLanguage (Some s)), (isRTLLanguage (Some t));
    simpl in H; congruence.
Qed.

(** C3. The classifier is a total function of the code alone: an absent or
    empty code is LTR; any other code is RTL exactly when the part of its
    lower-cased form before the first hyphen is one of the fourteen subtags
    ar, arc, dv, fa, ha, he, khw, ks, ku, ps, sd, ur, uz, yi. So AR, he-IL
    and ar-SA are RTL and en-GB is LTR. *)
Theorem isRTLLanguage_is_classifier :
  (forall lang : option string, verdictOf (isRTLLanguage lang) = classify lang)
  /\ isRTLLanguage None = false
  /\ isRTLLanguage (Some "") = false
  /\ (forall s : string,
        isRTLLanguage (Some s) = true <->
        s <> "" /\ In (primarySubtag s) rtlPrimarySubtags)
  /\ List.length rtlPrimarySubtags = 14
  /\ NoDup rtlPrimarySubtags
  /\ isRTLLanguage (Some "AR") = true
  /\ isRTLLanguage (Some "he-IL") = true
  /\ isRTLLanguage (Some "ar-SA") = true
  /\ isRTLLanguage (Some "en-GB") = false.
Proof.
  split; [exact isRTLLanguage_classify|].
  split; [reflexivity|]. split; [reflexivity|].
  split.
  { intros s.
    rewrite isRTLLanguage_true_iff. unfold classify.
    destruct (string_dec s "") as [->|Hne].
    - split; [discriminate | intros [H _]; now elim H].
    - destruct (in_dec string_dec (primarySubtag s) rtlPrimarySubtags) as [Hin|Hout].
      + split; [now split | reflexivity].
      + split; [discriminate | intros [_ H]; contradiction]. }
  split; [reflexivity|].
  split.
  { repeat constructor; simpl; intuition discriminate. }
  repeat split; reflexivity.
Qed.

(** ** Attributes and class tokens *)

Section AttributeLemmas.

Variables (name v : string).

Lemma getAttribute_setAttribute (attrs : Attrs) :
  getAttribute name (setAttribute name v attrs) = Some v.
Proof.
  induction attrs as [|[n u] rest IH]; simpl.
  - now rewrite String.eqb_refl.
  - destruct (String.eqb n name) eqn:E; simpl; now rewrite E.
Qed.

Lemma getAttribute_setAttribute_other (other : string) (attrs : Attrs) :
  other <> name ->
  getAttribute other (setAttribute name v attrs) = getAttribute other attrs.
Proof.
  intros Hne. induction attrs as [|[n u] rest IH]; simpl.
  - destruct (String.eqb name other) eqn:E; [|reflexivity].
    apply String.eqb_eq in E. congruence.
  - destruct (String.eqb n name) eqn:E; simpl.
    + apply String.eqb_eq in E. subst n.
      destruct (String.eqb name other) eqn:E'; [|reflexivity].
      apply String.eqb_eq in E'. congruence.
    + now rewrite IH.
Qed.

(** Writing the value an attribute already has changes nothing. *)
Lemma setAttribute_same (attrs : Attrs) :
  getAttribute name attrs = Some v -> setAttribute name v attrs = attrs.
Proof.
  induction attrs as [|[n u] rest IH]; simpl; [discriminate|].
  destruct (String.eqb n name).
  - intros H. now inversion H.
  - intros H. now rewrite IH.
Qed.

Lemma setAttribute_idem (attrs : Attrs) :
  setAttribute name v (setAttribute name v attrs) = setAttribute name v attrs.
Proof. apply setAttribute_same, getAttribute_setAttribute. Qed.

End AttributeLemmas.

Section TokenLemmas.

Variable token : string.

Lemma contains_In (tokens : list string) :
  contains token tokens = true <-> In token tokens.
Proof. apply existsb_eqb_In. Qed.

Lemma contains_tokenAdd (tokens : list string) :
  contains token (tokenAdd token tokens) = true.
Proof.
  unfold tokenAdd. destruct (contains token tokens) eqn:E; [assumption|].
  apply contains_In, in_or_app. right. now left.
Qed.

Lemma tokenAdd_present (tokens : list string) :
  contains token tokens = true -> tokenAdd token tokens = tokens.
Proof. unfold tokenAdd. now intros ->. Qed.

Lemma tokenAdd_idem (tokens : list string) :
  tokenAdd token (tokenAdd token tokens) = tokenAdd token tokens.
Proof. apply tokenAdd_present, contains_tokenAdd. Qed.

Lemma contains_tokenRemove (tokens : list string) :
  contains token (tokenRemove token tokens) = false.
Proof.
  destruct (contains token (tokenRemove token tokens)) eqn:E; [|reflexivity].
  apply contains_In in E. unfold tokenRemove in E.
  apply filter_In in E. destruct E as [_ E].
  now rewrite String.eqb_refl in E.
Qed.

Lemma tokenRemove_absent (tokens : list string) :
  contains token tokens = false -> tokenRemove token tokens = tokens.
Proof.
  unfold contains, tokenRemove.
  induction tokens as [|t rest IH]; simpl; [reflexivity|].
  rewrite (String.eqb_sym t token).
  destruct (String.eqb token t); simpl; [discriminate|].
  intros H. now rewrite IH.
Qed.

Lemma tokenRemove_idem (tokens : list string) :
  tokenRemove token (tokenRemove token tokens) = tokenRemove token tokens.
Proof. apply tokenRemove_absent, contains_tokenRemove. Qed.

End TokenLemmas.

(** ** Appliers *)

(** Unfolding of the effect primitives, down to explicit worlds. *)
Ltac unfold_prims :=
  unfold run, exec, completion, console_log, emit, html_setAttribute,
    html_classList_add, html_classList_remove, modifyHtml, getHtml,
    getDocument, setDocument, getTranslatePage, observe, setTimeout,
    setInterval, document_addEventListener, switcher_addEventListener,
    exportRTLDetector, skip, bind, ret, withDocument, withElement in *.

Lemma applyRTL_run (w : World) :
  run applyRTL w = (updated (rtlElement (root w)) rtlEvents w, Normal tt).
Proof.
  unfold applyRTL, updated, rtlElement, rtlEvents, root. unfold_prims. simpl.
  now rewrite <- app_assoc.
Qed.

Lemma applyLTR_run (w : World) :
  run applyLTR w = (updated (ltrElement (root w)) ltrEvents w, Normal tt).
Proof.
  unfold applyLTR, updated, ltrElement, ltrEvents, root. unfold_prims. simpl.
  now rewrite <- app_assoc.
Qed.

Lemma rtlElement_idem (e : Element) : rtlElement (rtlElement e) = rtlElement e.
Proof.
  unfold rtlElement. simpl. now rewrite setAttribute_idem, tokenAdd_idem.
Qed.

Lemma ltrElement_idem (e : Element) : ltrElement (ltrElement e) = ltrElement e.
Proof.
  unfold ltrElement. simpl. now rewrite setAttribute_idem, tokenRemove_idem.
Qed.

Lemma rtlElement_fixed (e : Element) :
  getAttribute "dir" (attributes e) = Some "rtl" ->
  contains "rtl-mode" (classList e) = true ->
  rtlElement e = e.
Proof.
  intros Hdir Hmark. destruct e as [attrs cl]. unfold rtlElement. simpl in *.
  now rewrite setAttribute_same, tokenAdd_present.
Qed.

Lemma ltrElement_fixed (e : Element) :
  getAttribute "dir" (attributes e) = Some "ltr" ->
  contains "rtl-mode" (classList e) = false ->
  ltrElement e = e.
Proof.
  intros Hdir Hmark. destruct e as [attrs cl]. unfold ltrElement. simpl in *.
  now rewrite setAttribute_same, tokenRemove_absent.
Qed.

Lemma withElement_same (d : Document) : withElement (documentElement d) d = d.
Proof. now destruct d. Qed.

Lemma exec_bind_unit (m k : M unit) (w : World) :
  completion m w = Normal tt -> exec (m ;; k) w = exec k (exec m w).
Proof.
  unfold completion, exec, bind. destruct (m w) as [w' [[]|e]]; simpl; congruence.
Qed.

(** C6. The appliers are idempotent: from every state, applyRTL twice leaves
    the document (direction attribute, marker class and all the rest) as
    applyRTL once does, and so does applyLTR; and the applier that matches
    the current state (direction rtl with the marker, direction ltr without
    it) changes nothing in the document. Only the console gets one more
    line per call. *)
Theorem appliers_idempotent (w : World) :
  untraced (exec (applyRTL ;; applyRTL) w) = untraced (exec applyRTL w)
  /\ untraced (exec (applyLTR ;; applyLTR) w) = untraced (exec applyLTR w)
  /\ (dirOf w = Some "rtl" -> marked w = true ->
      untraced (exec applyRTL w) = untraced w)
  /\ (dirOf w = Some "ltr" -> marked w = false ->
      untraced (exec applyLTR w) = untraced w)
  /\ completion (applyRTL ;; applyRTL) w = Normal tt
  /\ completion (applyLTR ;; applyLTR) w = Normal tt.
Proof.
  assert (HR : forall u, exec applyRTL u = updated (rtlElement (root u)) rtlEvents u).
  { intros u. unfold exec. fold (run applyRTL u). now rewrite applyRTL_run. }
  assert (HL : forall u, exec applyLTR u = updated (ltrElement (root u)) ltrEvents u).
  { intros u. unfold exec. fold (run applyLTR u). now rewrite applyLTR_run. }
  repeat split.
  - rewrite exec_bind_unit by reflexivity. rewrite !HR.
    unfold untraced, updated, root. simpl. now rewrite rtlElement_idem.
  - rewrite exec_bind_unit by reflexivity. rewrite !HL.
    unfold untraced, updated, root. simpl. now rewrite ltrElement_idem.
  - intros Hdir Hmark. rewrite HR. unfold untraced, updated. simpl.
    rewrite rtlElement_fixed by assumption.
    unfold root. now rewrite withElement_same.
  - intros Hdir Hmark. rewrite HL. unfold untraced, updated. simpl.
    rewrite ltrElement_fixed by assumption.
    unfold root. now rewrite withElement_same.
Qed.

Lemma appliers_idempotent_witness :
  untraced (exec applyRTL arabicPage) = untraced arabicPage
  /\ untraced (exec applyLTR englishPage) = untraced englishPage.
Proof.
  split.
  - destruct (appliers_idempotent arabicPage) as (_ & _ & H & _).
    apply H; reflexivity.
  - destruct (appliers_idempotent englishPage) as (_ & _ & _ & H & _).
    apply H; reflexivity.
Defined.

(** ** Traces *)

Lemma events_of_trace {A : Type} (m : M A) (w : World) (evs : list Event) :
  trace (exec m w) = (trace w ++ evs)%list -> events m w = evs.
Proof.
  unfold events. intros ->.
  rewrite skipn_app, skipn_all, Nat.sub_diag. reflexivity.
Qed.

Lemma strictEq_Some (a : option string) (s : string) :
  strictEq a (Some s) = true <-> a = Some s.
Proof.
  destruct a as [x|]; simpl.
  - rewrite String.eqb_eq. split; congruence.
  - split; discriminate.
Qed.

(** ** The sweep *)

(** What one tick does, by cases on the verdict and the direction. *)
Lemma sweep_run (w : World) :
  run sweep w =
    if isRTLLanguage (langOf w) && negb (strictEq (dirOf w) (Some "rtl"))
    then run applyRTL w
    else if negb (isRTLLanguage (langOf w)) && strictEq (dirOf w) (Some "rtl")
         then run applyLTR w
         else (w, Normal tt).
Proof.
  unfold sweep, langOf, dirOf, root, run, getHtml, bind.
  destruct (isRTLLanguage _ && negb _); [reflexivity|].
  destruct (negb _ && strictEq _ _); reflexivity.
Qed.

Lemma sweep_completes (w : World) : completion sweep w = Normal tt.
Proof.
  unfold completion. fold (run sweep w). rewrite sweep_run.
  destruct (isRTLLanguage _ && negb _); [now rewrite applyRTL_run|].
  destruct (negb _ && strictEq _ _); [now rewrite applyLTR_run | reflexivity].
Qed.

Lemma langOf_updated_rtl (w : World) (evs : list Event) :
  langOf (updated (rtlElement (root w)) evs w) = langOf w.
Proof.
  unfold langOf, updated, rtlElement, root. simpl.
  now rewrite getAttribute_setAttribute_other by discriminate.
Qed.

Lemma langOf_updated_ltr (w : World) (evs : list Event) :
  langOf (updated (ltrElement (root w)) evs w) = langOf w.
Proof.
  unfold langOf, updated, ltrElement, root. simpl.
  now rewrite getAttribute_setAttribute_other by discriminate.
Qed.

Lemma dirOf_updated_rtl (w : World) (evs : list Event) :
  dirOf (updated (rtlElement (root w)) evs w) = Some "rtl".
Proof.
  unfold dirOf, updated, rtlElement, root. simpl.
  apply getAttribute_setAttribute.
Qed.

Lemma dirOf_updated_ltr (w : World) (evs : list Event) :
  dirOf (updated (ltrElement (root w)) evs w) = Some "ltr".
Proof.
  unfold dirOf, updated, ltrElement, root. simpl.
  apply getAttribute_setAttribute.
Qed.

Lemma marked_updated_rtl (w : World) (evs : list Event) :
  marked (updated (rtlElement (root w)) evs w) = true.
Proof.
  unfold marked, updated, rtlElement, root. simpl. apply contains_tokenAdd.
Qed.

Lemma marked_updated_ltr (w : World) (evs : list Event) :
  marked (updated (ltrElement (root w)) evs w) = false.
Proof.
  unfold marked, updated, ltrElement, root. simpl. apply contains_tokenRemove.
Qed.

Lemma sweep_exec (w : World) :
  exec sweep w =
    if isRTLLanguage (langOf w) && negb (strictEq (dirOf w) (Some "rtl"))
    then updated (rtlElement (root w)) rtlEvents w
    else if negb (isRTLLanguage (langOf w)) && strictEq (dirOf w) (Some "rtl")
         then updated (ltrElement (root w)) ltrEvents w
         else w.
Proof.
  unfold exec. fold (run sweep w). rewrite sweep_run.
  destruct (isRTLLanguage _ && negb _); [now rewrite applyRTL_run|].
  destruct (negb _ && strictEq _ _); [now rewrite applyLTR_run | reflexivity].
Qed.

Lemma sweep_keeps_lang (w : World) : langOf (exec sweep w) = langOf w.
Proof.
  rewrite sweep_exec.
  destruct (isRTLLanguage _ && negb _); [apply langOf_updated_rtl|].
  destruct (negb _ && strictEq _ _); [apply langOf_updated_ltr | reflexivity].
Qed.

(** After a tick the direction is rtl exactly for a right-to-left
    language, whatever the state before. *)
Lemma sweep_directionCorrect (w : World) : directionCorrect (exec sweep w).
Proof.
  unfold directionCorrect. rewrite sweep_keeps_lang, sweep_exec.
  destruct (isRTLLanguage (langOf w)) eqn:Hrtl;
    destruct (strictEq (dirOf w) (Some "rtl")) eqn:Hdir; cbn [andb negb].
  - apply strictEq_Some in Hdir. now split.
  - rewrite dirOf_updated_rtl. now split.
  - rewrite dirOf_updated_ltr. split; discriminate.
  - split; [|discriminate].
    intros H. apply strictEq_Some in H. congruence.
Qed.

Lemma exec_forEach_cons {A : Type} (f : A -> M unit) (x : A) (xs : list A) (w : World) :
  completion (f x) w = Normal tt ->
  exec (forEach (x :: xs) f) w = exec (forEach xs f) (exec (f x) w).
Proof. intros H. simpl. now apply exec_bind_unit. Qed.

Lemma langOf_externalSetLang (v : string) (w : World) :
  langOf (exec (externalSetLang v) w) = Some v.
Proof.
  unfold langOf, root, externalSetLang. unfold_prims. simpl.
  apply getAttribute_setAttribute.
Qed.

(** After a sequence of writes the language is the last one written. *)
Lemma langOf_after_writes (writes : list string) (w : World) :
  langOf (exec (forEach writes externalSetLang) w) =
    match writes with
    | [] => langOf w
    | _ :: _ => Some (last writes "")
    end.
Proof.
  revert w. induction writes as [|v rest IH]; intros w; [reflexivity|].
  rewrite exec_forEach_cons by reflexivity. rewrite IH.
  destruct rest as [|v' rest']; [apply langOf_externalSetLang | reflexivity].
Qed.

(** C1. Invariant restoration: after any sequence of external writes of the
    root's language attribute, from any state, the next sweep tick (the
    callback of the interval timer) runs to its end and leaves the direction
    attribute equal to rtl if and only if the classifier's verdict for the
    then-current language (the last one written, which the tick does not
    change) is RTL. *)
Theorem sweep_restores_invariant (writes : list string) (w : World) :
  let current := exec (forEach writes externalSetLang) w in
  let after := exec sweep current in
  (dirOf after = Some "rtl" <-> classify (langOf after) = RTL)
  /\ langOf after = langOf current
  /\ langOf current = match writes with
                      | [] => langOf w
                      | _ :: _ => Some (last writes "")
                      end
  /\ completion sweep current = Normal tt
  /\ call CbSweep noArgs = sweep.
Proof.
  cbv zeta. repeat split.
  - intros H. apply isRTLLanguage_true_iff.
    now apply (sweep_directionCorrect (exec (forEach writes externalSetLang) w)).
  - intros H. apply isRTLLanguage_true_iff in H.
    now apply (sweep_directionCorrect (exec (forEach writes externalSetLang) w)).
  - apply sweep_keeps_lang.
  - apply langOf_after_writes.
  - apply sweep_completes.
Qed.

Lemma sweep_events (w : World) :
  events sweep w =
    if isRTLLanguage (langOf w) && negb (strictEq (dirOf w) (Some "rtl"))
    then rtlEvents
    else if negb (isRTLLanguage (langOf w)) && strictEq (dirOf w) (Some "rtl")
         then ltrEvents
         else [].
Proof.
  apply events_of_trace. rewrite sweep_exec.
  destruct (isRTLLanguage _ && negb _); [reflexivity|].
  destruct (negb _ && strictEq _ _); [reflexivity|].
  now rewrite app_nil_r.
Qed.

(** C5. A sweep tick recomputes the verdict from the current language and
    compares it with the current direction: it runs applyRTL (and nothing
    else) when the verdict is RTL and the direction is not rtl, applyLTR
    (and nothing else) when the verdict is LTR and the direction is rtl, and
    neither applier otherwise; it never calls the translation hook, whatever
    is registered, nor the reconcile routine. *)
Theorem sweep_applies_on_mismatch_only (w : World) :
  let shouldBeRTL := isRTLLanguage (langOf w) in
  let isRtl := strictEq (dirOf w) (Some "rtl") in
  run sweep w =
    (if shouldBeRTL && negb isRtl then run applyRTL w
     else if negb shouldBeRTL && isRtl then run applyLTR w
     else (w, Normal tt))
  /\ (In (Called F_applyRTL) (events sweep w) <->
      shouldBeRTL = true /\ dirOf w <> Some "rtl")
  /\ (In (Called F_applyLTR) (events sweep w) <->
      shouldBeRTL = false /\ dirOf w = Some "rtl")
  /\ (forall arg : option string, ~ In (Hooked arg) (events sweep w))
  /\ ~ In (Called F_detectAndApplyLayout) (events sweep w).
Proof.
  cbv zeta. split; [apply sweep_run|].
  rewrite sweep_events.
  assert (Hdir : strictEq (dirOf w) (Some "rtl") = true <-> dirOf w = Some "rtl")
    by apply strictEq_Some.
  destruct (isRTLLanguage (langOf w));
    destruct (strictEq (dirOf w) (Some "rtl")); cbn [andb negb];
    unfold rtlEvents, ltrEvents; simpl;
    repeat split; intros; intuition (discriminate || congruence).
Qed.

(** ** Sweeps that find the direction right *)

Lemma sweep_noop (w : World) :
  directionCorrect w -> run sweep w = (w, Normal tt).
Proof.
  unfold directionCorrect. intros Hok. rewrite sweep_run.
  destruct (isRTLLanguage (langOf w)) eqn:Hrtl;
    destruct (strictEq (dirOf w) (Some "rtl")) eqn:Hdir; cbn [andb negb];
    try reflexivity.
  - assert (H : dirOf w = Some "rtl") by now apply Hok.
    apply strictEq_Some in H. congruence.
  - apply strictEq_Some in Hdir. apply Hok in Hdir. discriminate.
Qed.

Lemma sweeps_noop (n : nat) (w : World) :
  directionCorrect w -> run (sweeps n) w = (w, Normal tt).
Proof.
  intros Hok. induction n as [|k IH]; [reflexivity|].
  simpl. unfold run, bind in *. fold (run sweep w).
  rewrite sweep_noop by assumption. exact IH.
Qed.

(** C10. A sweep tick looks at the direction attribute only: from a state
    whose direction already agrees with the verdict, any number of ticks
    changes nothing at all, neither state nor trace. So a marker that
    disagrees with the direction (rtl without the marker, ltr with it) stays
    as it is through every tick. *)
Theorem sweep_ignores_marker (n : nat) (w : World) :
  (dirOf w = Some "rtl" <-> isRTLLanguage (langOf w) = true) ->
  run (sweeps n) w = (w, Normal tt)
  /\ marked (exec (sweeps n) w) = marked w.
Proof.
  intros Hok.
  assert (H : run (sweeps n) w = (w, Normal tt)) by now apply sweeps_noop.
  split; [assumption|].
  unfold exec. fold (run (sweeps n) w). now rewrite H.
Qed.

Lemma sweep_ignores_marker_witness :
  (dirOf arabicUnmarkedPage = Some "rtl"
   /\ isRTLLanguage (langOf arabicUnmarkedPage) = true
   /\ marked (exec (sweeps 5) arabicUnmarkedPage) = false)
  /\ (dirOf englishMarkedPage = Some "ltr"
      /\ isRTLLanguage (langOf englishMarkedPage) = false
      /\ marked (exec (sweeps 5) englishMarkedPage) = true).
Proof.
  split.
  - split; [reflexivity|]. split; [reflexivity|].
    destruct (sweep_ignores_marker 5 arabicUnmarkedPage) as [_ H].
    + split; reflexivity.
    + exact H.
  - split; [reflexivity|]. split; [reflexivity|].
    destruct (sweep_ignores_marker 5 englishMarkedPage) as [_ H].
    + split; discriminate.
    + exact H.
Defined.

(** ** Reconcile *)

Lemma callHook_run (f : Hook) (arg : option string) (w : World) :
  run (callHook f arg) w =
    (mkWorld (fst (f arg (document w))) (translatePage w) (RTLDetector w)
       (observers w) (timeouts w) (intervals w) (trace w ++ [Hooked arg]),
     match snd (f arg (document w)) with
     | None => Normal tt
     | Some e => Throw e
     end).
Proof.
  unfold callHook. unfold_prims. simpl.
  destruct (f arg (document w)) as [d thrown]. reflexivity.
Qed.

Lemma detectAndApplyLayout_run (w : World) :
  run detectAndApplyLayout w =
    match translatePage w with
    | JsFunction f => run (callHook f (langOf w)) (applied w)
    | _ => (applied w, Normal tt)
    end.
Proof.
  unfold detectAndApplyLayout, applied, langOf, root, run.
  unfold bind at 1. unfold emit at 1. unfold bind at 1. unfold getHtml at 1.
  cbn [document documentElement].
  unfold bind at 1.
  destruct (isRTLLanguage (getAttribute "lang" (attributes (documentElement (document w))))).
  - change (applyRTL ?u) with (run applyRTL u). rewrite applyRTL_run.
    unfold updated, rtlEvents, root, getTranslatePage, bind, skip, ret. simpl.
    rewrite <- app_assoc. simpl. destruct (translatePage w); reflexivity.
  - change (applyLTR ?u) with (run applyLTR u). rewrite applyLTR_run.
    unfold updated, ltrEvents, root, getTranslatePage, bind, skip, ret. simpl.
    rewrite <- app_assoc. simpl. destruct (translatePage w); reflexivity.
Qed.

Lemma applied_lang (w : World) : langOf (applied w) = langOf w.
Proof.
  unfold applied. destruct (isRTLLanguage (langOf w));
    [apply langOf_updated_rtl | apply langOf_updated_ltr].
Qed.

Lemma applied_directionCorrect (w : World) : directionCorrect (applied w).
Proof.
  unfold directionCorrect. rewrite applied_lang. unfold applied.
  destruct (isRTLLanguage (langOf w)).
  - rewrite dirOf_updated_rtl. now split.
  - rewrite dirOf_updated_ltr. split; discriminate.
Qed.

Lemma applied_markerCorrect (w : World) : markerCorrect (applied w).
Proof.
  unfold markerCorrect. rewrite applied_lang. unfold applied.
  destruct (isRTLLanguage (langOf w)) eqn:E.
  - apply marked_updated_rtl.
  - apply marked_updated_ltr.
Qed.

Lemma applied_is_applier (w : World) :
  applied w =
    exec (if isRTLLanguage (langOf w) then applyRTL else applyLTR)
      (exec (emit (Called F_detectAndApplyLayout)) w).
Proof.
  unfold applied.
  destruct (isRTLLanguage (langOf w)).
  - unfold exec at 1. fold (run applyRTL (exec (emit (Called F_detectAndApplyLayout)) w)).
    rewrite applyRTL_run. unfold updated, rtlEvents, exec, emit, root. simpl.
    now rewrite <- app_assoc.
  - unfold exec at 1. fold (run applyLTR (exec (emit (Called F_detectAndApplyLayout)) w)).
    rewrite applyLTR_run. unfold updated, ltrEvents, exec, emit, root. simpl.
    now rewrite <- app_assoc.
Qed.

Lemma applied_trace (w : World) :
  trace (applied w) =
    (trace w ++ Called F_detectAndApplyLayout ::
       (if isRTLLanguage (langOf w) then rtlEvents else ltrEvents))%list.
Proof. unfold applied. now destruct (isRTLLanguage (langOf w)). Qed.

(** C2. Reconcile, from every state: it reads the language attribute,
    classifies it, runs applyRTL for the verdict RTL and applyLTR otherwise,
    and then calls the hook with that language code if, and only if, a
    function is registered as window.translatePage (the outcome is then the
    hook's); with nothing or a non-function registered it makes no call and
    completes, with direction and marker as the verdict asks. *)
Theorem detectAndApplyLayout_reconciles (w : World) :
  let lang := langOf w in
  let applier := if isRTLLanguage lang then applyRTL else applyLTR in
  let afterApplier := exec applier (exec (emit (Called F_detectAndApplyLayout)) w) in
  run detectAndApplyLayout w =
    match translatePage w with
    | JsFunction f => run (callHook f lang) afterApplier
    | _ => (afterApplier, Normal tt)
    end
  /\ events detectAndApplyLayout w =
       (Called F_detectAndApplyLayout
          :: (if isRTLLanguage lang then rtlEvents else ltrEvents)
          ++ (if isFunction (translatePage w) then [Hooked lang] else []))%list
  /\ directionCorrect afterApplier
  /\ markerCorrect afterApplier
  /\ langOf afterApplier = lang.
Proof.
  cbv zeta. rewrite <- applied_is_applier.
  split; [apply detectAndApplyLayout_run|].
  split.
  - apply events_of_trace. unfold exec. fold (run detectAndApplyLayout w).
    rewrite detectAndApplyLayout_run.
    destruct (translatePage w) as [| |f]; simpl.
    + now rewrite applied_trace, app_nil_r.
    + now rewrite applied_trace, app_nil_r.
    + rewrite callHook_run. simpl. rewrite applied_trace, <- app_assoc.
      reflexivity.
  - split; [apply applied_directionCorrect|].
    split; [apply applied_markerCorrect | apply applied_lang].
Qed.

(** Counterexample to C4 as stated: the exception of a hook that throws
    leaves reconcile. *)
Lemma throwing_hook_escapes_reconcile :
  translatePage failingHookPage = JsFunction failingHook
  /\ (forall arg d, failingHook arg d = (d, Some "translation failed"))
  /\ completion detectAndApplyLayout failingHookPage = Throw "translation failed".
Proof. repeat split. Qed.

(** C4, amended. When the registered hook throws, the exception propagates
    out of reconcile: nothing catches it. The applier has run before the
    hook is called, so on entry to the hook direction and marker match the
    verdict for the current language; they still do when reconcile is left,
    provided the hook did not itself change the root element. *)
Theorem throwing_hook_propagates (w : World) (f : Hook) (e : string) :
  translatePage w = JsFunction f ->
  snd (f (langOf w) (document (applied w))) = Some e ->
  completion detectAndApplyLayout w = Throw e
  /\ directionCorrect (applied w)
  /\ markerCorrect (applied w)
  /\ (documentElement (fst (f (langOf w) (document (applied w))))
        = documentElement (document (applied w)) ->
      directionCorrect (exec detectAndApplyLayout w)
      /\ markerCorrect (exec detectAndApplyLayout w)).
Proof.
  intros Hhook Hthrow.
  assert (Hrun : run detectAndApplyLayout w = run (callHook f (langOf w)) (applied w)).
  { rewrite detectAndApplyLayout_run. now rewrite Hhook. }
  split.
  { unfold completion. fold (run detectAndApplyLayout w).
    rewrite Hrun, callHook_run. simpl. now rewrite Hthrow. }
  split; [apply applied_directionCorrect|].
  split; [apply applied_markerCorrect|].
  intros Hframe.
  pose proof (applied_directionCorrect w) as Hd.
  pose proof (applied_markerCorrect w) as Hm.
  unfold directionCorrect, markerCorrect, dirOf, langOf, marked, root, exec in *.
  fold (run detectAndApplyLayout w). rewrite Hrun, callHook_run. simpl.
  unfold langOf, root in Hframe. rewrite Hframe. split; assumption.
Qed.

Lemma throwing_hook_propagates_witness :
  completion detectAndApplyLayout failingHookPage = Throw "translation failed"
  /\ dirOf (exec detectAndApplyLayout failingHookPage) = Some "rtl"
  /\ marked (exec detectAndApplyLayout failingHookPage) = true.
Proof.
  destruct (throwing_hook_propagates failingHookPage failingHook
              "translation failed" eq_refl eq_refl)
    as (Hc & _ & _ & Hframe).
  split; [exact Hc|].
  destruct (Hframe eq_refl) as [Hd Hm].
  split; [now apply Hd | exact Hm].
Defined.

(** ** The attribute observer *)

Lemma detectAndApplyLayout_trace (w : World) :
  trace (exec detectAndApplyLayout w) = (trace w ++ reconcileEvents w)%list.
Proof.
  unfold exec. fold (run detectAndApplyLayout w).
  rewrite detectAndApplyLayout_run. unfold reconcileEvents.
  destruct (translatePage w) as [| |f]; simpl.
  - now rewrite applied_trace, app_nil_r.
  - now rewrite applied_trace, app_nil_r.
  - rewrite callHook_run. simpl. rewrite applied_trace, <- app_assoc.
    reflexivity.
Qed.

Lemma reconciles_app (xs ys : list Event) :
  reconciles (xs ++ ys) = reconciles xs + reconciles ys.
Proof. unfold reconciles. now rewrite filter_app, length_app. Qed.

Lemma reconciles_reconcileEvents (w : World) : reconciles (reconcileEvents w) = 1.
Proof.
  unfold reconcileEvents, rtlEvents, ltrEvents.
  destruct (isRTLLanguage (langOf w)), (isFunction (translatePage w)); reflexivity.
Qed.

Lemma detectAndApplyLayout_keeps_hook (w : World) :
  translatePage (exec detectAndApplyLayout w) = translatePage w.
Proof.
  unfold exec. fold (run detectAndApplyLayout w).
  rewrite detectAndApplyLayout_run.
  assert (H : translatePage (applied w) = translatePage w).
  { unfold applied. now destruct (isRTLLanguage (langOf w)). }
  destruct (translatePage w) as [| |f] eqn:E; simpl; try assumption.
  rewrite callHook_run. simpl. exact H.
Qed.

Lemma detectAndApplyLayout_completes (w : World) :
  isFunction (translatePage w) = false ->
  completion detectAndApplyLayout w = Normal tt.
Proof.
  intros H. unfold completion. fold (run detectAndApplyLayout w).
  rewrite detectAndApplyLayout_run.
  destruct (translatePage w); [reflexivity | reflexivity | discriminate].
Qed.

Lemma onLangMutation_run (w : World) :
  run onLangMutation w = run detectAndApplyLayout (logged w).
Proof.
  unfold onLangMutation, logged, updated, langOf, root. unfold_prims.
  destruct w as [d tp ex obs tos ivs tr]. destruct d. reflexivity.
Qed.

Lemma langObserverCallback_cons (m : MutationRecord) (ms : list MutationRecord) :
  langObserverCallback (m :: ms) =
    ((if isLangMutation m then onLangMutation else skip) ;; langObserverCallback ms).
Proof. reflexivity. Qed.

Lemma logged_facts (w : World) :
  trace (logged w) = (trace w ++ [Logged [Some "Language changed to:"; langOf w]])%list
  /\ translatePage (logged w) = translatePage w.
Proof. split; reflexivity. Qed.

(** The observer's run over a batch: what it appends to the trace holds at
    most one reconcile call per language mutation, and one for each when
    the run completes. *)
Lemma langObserverCallback_calls (batch : list MutationRecord) :
  forall w : World,
  exists evs : list Event,
    trace (exec (langObserverCallback batch) w) = (trace w ++ evs)%list
    /\ translatePage (exec (langObserverCallback batch) w) = translatePage w
    /\ reconciles evs <= List.length (filter isLangMutation batch)
    /\ (completion (langObserverCallback batch) w = Normal tt ->
        reconciles evs = List.length (filter isLangMutation batch)).
Proof.
  induction batch as [|m ms IH]; intros w.
  - exists []. simpl. rewrite app_nil_r. repeat split; auto.
  - rewrite langObserverCallback_cons.
    destruct (isLangMutation m) eqn:Hm; cbn [filter]; rewrite Hm.
    + unfold exec, completion, bind. fold (run onLangMutation w).
      rewrite onLangMutation_run. unfold run.
      pose proof (detectAndApplyLayout_trace (logged w)) as Htr.
      pose proof (detectAndApplyLayout_keeps_hook (logged w)) as Hk.
      pose proof (reconciles_reconcileEvents (logged w)) as Hone.
      destruct (logged_facts w) as [Hlt Hlk].
      unfold exec in Htr, Hk.
      destruct (detectAndApplyLayout (logged w)) as [w2 [[]|e]]; simpl in *.
      * destruct (IH w2) as (evs & Ht & Hh & Hle & Heq).
        exists ([Logged [Some "Language changed to:"; langOf w]]
                  ++ reconcileEvents (logged w) ++ evs)%list.
        unfold exec, completion in *.
        split.
        { rewrite Ht, Htr. now rewrite <- !app_assoc. }
        split; [congruence|].
        rewrite !reconciles_app, Hone. simpl.
        split; [lia|]. intros Hc. rewrite (Heq Hc). reflexivity.
      * exists ([Logged [Some "Language changed to:"; langOf w]]
                  ++ reconcileEvents (logged w))%list.
        split.
        { rewrite Htr. now rewrite <- !app_assoc. }
        split; [congruence|].
        rewrite !reconciles_app, Hone. simpl.
        split; [lia | discriminate].
    + unfold exec, completion, bind, skip, ret. simpl. apply IH.
Qed.

Lemma langObserverCallback_completes (batch : list MutationRecord) :
  forall w : World,
    isFunction (translatePage w) = false ->
    completion (langObserverCallback batch) w = Normal tt.
Proof.
  induction batch as [|m ms IH]; intros w Hno; [reflexivity|].
  rewrite langObserverCallback_cons.
  destruct (isLangMutation m) eqn:Hm.
  - unfold completion, bind. fold (run onLangMutation w).
    rewrite onLangMutation_run. unfold run.
    pose proof (detectAndApplyLayout_completes (logged w) Hno) as Hc.
    pose proof (detectAndApplyLayout_keeps_hook (logged w)) as Hk.
    unfold completion, exec in Hc, Hk.
    destruct (detectAndApplyLayout (logged w)) as [w2 c]. simpl in *. subst c.
    apply IH. now rewrite Hk.
  - unfold completion, bind, skip, ret. simpl. now apply IH.
Qed.

Lemma langObserverCallback_idle (batch : list MutationRecord) (w : World) :
  filter isLangMutation batch = [] ->
  run (langObserverCallback batch) w = (w, Normal tt).
Proof.
  induction batch as [|m ms IH]; [reflexivity|].
  cbn [filter]. destruct (isLangMutation m) eqn:Hm; [discriminate|].
  intros H. rewrite langObserverCallback_cons, Hm.
  unfold run, bind, skip, ret in *. simpl. now apply IH.
Qed.

(** The records the host queues under the registered options are the
    language mutations: the filter of the registration and the test of the
    callback agree. *)
Lemma observed_is_lang_mutation (r : MutationRecord) :
  observed langObserverOptions r = isLangMutation r.
Proof.
  destruct r as [[| |] [n|]]; try reflexivity.
  unfold observed, isLangMutation, langObserverOptions, contains, strictEq.
  cbn [type attributeName attributesOpt attributeFilter andb existsb].
  now rewrite orb_false_r.
Qed.

(** Counterexample to C7 as stated: a hook that throws ends the observer's
    loop, and the language mutations after it get no reconcile call. *)
Lemma throwing_hook_cuts_batch :
  List.length (filter isLangMutation [langChange; langChange]) = 2
  /\ reconciles (events (langObserverCallback [langChange; langChange]) failingHookPage) = 1
  /\ completion (langObserverCallback [langChange; langChange]) failingHookPage
     = Throw "translation failed".
Proof. repeat split. Qed.

(** C7, amended. The attribute-watch path never fires for unrelated changes:
    for every batch delivered to the attribute observer, reconcile is called
    for attribute mutations of the language attribute only, at most once
    each, and once for each of them when no call in the batch throws, as is
    always the case with no hook function registered. A batch with no
    language mutation (only a class edit, say) leaves state and trace as
    they are. The records the registration's filter lets through are the
    same ones the callback tests for. *)
Theorem langObserver_reconciles_lang_mutations_only
    (batch : list MutationRecord) (w : World) :
  let calls := reconciles (events (langObserverCallback batch) w) in
  let langMutations := List.length (filter isLangMutation batch) in
  calls <= langMutations
  /\ (completion (langObserverCallback batch) w = Normal tt ->
      calls = langMutations)
  /\ (isFunction (translatePage w) = false ->
      completion (langObserverCallback batch) w = Normal tt
      /\ calls = langMutations)
  /\ (langMutations = 0 -> run (langObserverCallback batch) w = (w, Normal tt))
  /\ (forall r : MutationRecord, observed langObserverOptions r = isLangMutation r)
  /\ isLangMutation classChange = false.
Proof.
  cbv zeta.
  destruct (langObserverCallback_calls batch w) as (evs & Ht & _ & Hle & Heq).
  rewrite (events_of_trace _ _ _ Ht).
  split; [exact Hle|]. split; [exact Heq|].
  split.
  { intros Hno.
    pose proof (langObserverCallback_completes batch w Hno) as Hc.
    split; [exact Hc | exact (Heq Hc)]. }
  split.
  { intros H0. apply langObserverCallback_idle.
    now apply length_zero_iff_nil. }
  split; [exact observed_is_lang_mutation | reflexivity].
Qed.

Lemma langObserver_reconciles_lang_mutations_only_witness :
  reconciles (events (langObserverCallback
                        [classChange; langChange; childInsertion; langChange])
                englishPage) = 2
  /\ run (langObserverCallback [classChange]) englishPage = (englishPage, Normal tt).
Proof.
  split.
  - destruct (langObserver_reconciles_lang_mutations_only
                [classChange; langChange; childInsertion; langChange] englishPage)
      as (_ & _ & H & _).
    destruct (H eq_refl) as [_ Heq]. exact Heq.
  - destruct (langObserver_reconciles_lang_mutations_only [classChange] englishPage)
      as (_ & _ & _ & H & _).
    exact (H eq_refl).
Defined.

(** ** The widget observer *)

Section NodeInduction.

Variable P : Node -> Prop.
Hypothesis step :
  forall classes children, Forall P children -> P (Elem classes children).

Fixpoint Node_forall_ind (n : Node) : P n :=
  match n with
  | Elem classes children =>
      step classes children
        ((fix all (ns : list Node) : Forall P ns :=
            match ns with
            | [] => Forall_nil P
            | m :: ms => Forall_cons m (Node_forall_ind m) (all ms)
            end) children)
  end.

End NodeInduction.

Lemma findClass_unfold (cls : string) (classes : list string) (children : list Node) :
  findClass cls (Elem classes children) =
    if contains cls classes then Some (Elem classes children)
    else fold_right
           (fun m found => match findClass cls m with
                           | Some hit => Some hit
                           | None => found
                           end) None children.
Proof.
  simpl. destruct (contains cls classes); [reflexivity|].
  induction children as [|m ms IH]; [reflexivity|].
  simpl. destruct (findClass cls m); [reflexivity | exact IH].
Qed.

Lemma findClass_sound (cls : string) (n : Node) :
  findClass cls n <> None -> HasClass cls n.
Proof.
  induction n as [classes children IH] using Node_forall_ind.
  rewrite findClass_unfold.
  destruct (contains cls classes) eqn:Hc; [intros _; now apply HasClass_here|].
  induction IH as [|m ms Hm _ IHms]; simpl; [congruence|].
  destruct (findClass cls m) eqn:Hf.
  - intros _. apply HasClass_below with (child := m); [now left|].
    apply Hm. congruence.
  - intros H. specialize (IHms H). inversion IHms as [? ? Hhere|? ? child Hin Hchild]; subst.
    + congruence.
    + apply HasClass_below with (child := child); [now right | assumption].
Qed.

Lemma findClass_complete (cls : string) (n : Node) :
  HasClass cls n -> findClass cls n <> None.
Proof.
  induction 1 as [classes children Hc | classes children child Hin _ IH];
    rewrite findClass_unfold.
  - now rewrite Hc.
  - destruct (contains cls classes); [discriminate|].
    induction children as [|m ms IHms]; [contradiction|].
    simpl. destruct Hin as [->|Hin].
    + destruct (findClass cls child); [discriminate | contradiction].
    + destruct (findClass cls m); [discriminate | now apply IHms].
Qed.

(** [querySelector] finds an element exactly when one carries the class. *)
Lemma querySelector_widget (d : Document) :
  querySelector ".goog-te-banner-frame" d <> None <-> HasClass widgetClass (rootNode d).
Proof.
  change (querySelector ".goog-te-banner-frame" d) with (findClass widgetClass (rootNode d)).
  split; [apply findClass_sound | apply findClass_complete].
Qed.

Lemma bodyObserverCallback_run (w : World) :
  run bodyObserverCallback w =
    match querySelector ".goog-te-banner-frame" (document w) with
    | Some _ => (withTimeouts (timeouts w ++ [(CbDetectAndApplyLayout, 500)]) w, Normal tt)
    | None => (w, Normal tt)
    end.
Proof.
  unfold bodyObserverCallback, withTimeouts. unfold_prims.
  destruct (querySelector ".goog-te-banner-frame" (document w)); reflexivity.
Qed.

(** C9. Whatever the batch, the widget observer's callback schedules one
    deferred call of reconcile, 500 ms ahead, exactly when an element with
    the widget's class is in the document at that moment, and otherwise
    does nothing. It re-fires on every batch while the element is there (two
    batches leave two pending calls), and a pending call runs reconcile
    once and is gone. *)
Theorem bodyObserver_schedules_reconcile (batch : list MutationRecord) (w : World) :
  let present := HasClass widgetClass (rootNode (document w)) in
  let observerCall := call CbBodyObserver (mkArgs batch None) in
  (present ->
   run observerCall w
   = (withTimeouts (timeouts w ++ [(CbDetectAndApplyLayout, 500)]) w, Normal tt))
  /\ (~ present -> run observerCall w = (w, Normal tt))
  /\ (present ->
      exec (observerCall ;; observerCall) w
      = withTimeouts (timeouts w ++ [(CbDetectAndApplyLayout, 500);
                                     (CbDetectAndApplyLayout, 500)]) w)
  /\ (forall (ms : nat) (rest : list (Callback * nat)),
        exec fireTimeout (withTimeouts ((CbDetectAndApplyLayout, ms) :: rest) w)
        = exec detectAndApplyLayout (withTimeouts rest w)).
Proof.
  cbv zeta. cbn [call].
  pose proof (querySelector_widget (document w)) as Hq.
  repeat split.
  - intros Hp. rewrite bodyObserverCallback_run.
    destruct (querySelector _ (document w)); [reflexivity|].
    apply Hq in Hp. congruence.
  - intros Hn. rewrite bodyObserverCallback_run.
    destruct (querySelector _ (document w)); [|reflexivity].
    exfalso. apply Hn, Hq. discriminate.
  - intros Hp.
    destruct (querySelector ".goog-te-banner-frame" (document w)) as [hit|] eqn:E;
      [|apply Hq in Hp; congruence].
    assert (H1 : run bodyObserverCallback w
                 = (withTimeouts (timeouts w ++ [(CbDetectAndApplyLayout, 500)]) w,
                    Normal tt)).
    { rewrite bodyObserverCallback_run. now rewrite E. }
    assert (H2 : run bodyObserverCallback
                   (withTimeouts (timeouts w ++ [(CbDetectAndApplyLayout, 500)]) w)
                 = (withTimeouts ((timeouts w ++ [(CbDetectAndApplyLayout, 500)])
                                    ++ [(CbDetectAndApplyLayout, 500)]) w,
                    Normal tt)).
    { rewrite bodyObserverCallback_run.
      change (document (withTimeouts _ w)) with (document w).
      now rewrite E. }
    unfold run in H1, H2. unfold exec, bind. rewrite H1, H2.
    cbn [fst]. now rewrite <- app_assoc.
Qed.

Lemma bodyObserver_schedules_reconcile_witness :
  timeouts (exec (call CbBodyObserver (mkArgs [childInsertion] None)) widgetPage)
  = [(CbDetectAndApplyLayout, 500)]
  /\ timeouts (exec (call CbBodyObserver (mkArgs [childInsertion] None)) plainPage) = [].
Proof.
  split.
  - destruct (bodyObserver_schedules_reconcile [childInsertion] widgetPage)
      as (H & _).
    unfold run in H. unfold exec. rewrite H; [reflexivity|].
    apply HasClass_below with (child := Elem ["skiptranslate"]
             [Elem ["goog-te-banner-frame"; "skiptranslate"] []]).
    + right. now left.
    + apply HasClass_below with
        (child := Elem ["goog-te-banner-frame"; "skiptranslate"] []).
      * now left.
      * now apply HasClass_here.
  - destruct (bodyObserver_schedules_reconcile [childInsertion] plainPage)
      as (_ & H & _).
    unfold run in H. unfold exec. rewrite H; [reflexivity|].
    intros Hp. apply findClass_complete in Hp. now apply Hp.
Defined.

(** ** The manual switch *)

(** The change handler writes the language attribute, logs, and touches
    nothing else: direction, class tokens and the rest of the world stay. *)
Lemma switcherChange_run (this : Select) (w : World) :
  run (switcherChange this) w =
    (updated
       (mkElement (setAttribute "lang" (value this) (attributes (root w)))
          (classList (root w)))
       [Logged [Some "Language manually switched to:"; Some (value this)]] w,
     Normal tt).
Proof. unfold switcherChange, updated, root. unfold_prims. reflexivity. Qed.

Lemma switcherChange_frame (this : Select) (w : World) :
  langOf (exec (switcherChange this) w) = Some (value this)
  /\ dirOf (exec (switcherChange this) w) = dirOf w
  /\ classList (root (exec (switcherChange this) w)) = classList (root w)
  /\ (forall name, name <> "lang" ->
        getAttribute name (attributes (root (exec (switcherChange this) w)))
        = getAttribute name (attributes (root w))).
Proof.
  unfold exec. fold (run (switcherChange this) w). rewrite switcherChange_run.
  unfold langOf, dirOf, updated, root. simpl.
  split; [apply getAttribute_setAttribute|].
  split; [now apply getAttribute_setAttribute_other|].
  split; [reflexivity|].
  intros name Hne. now apply getAttribute_setAttribute_other.
Qed.

(** Without the control the setup does nothing and does not throw. *)
Lemma switcherSetup_without_control (w : World) :
  languageSwitcher (document w) = None ->
  run switcherSetup w = (w, Normal tt).
Proof.
  intros Hnone. unfold switcherSetup, getElementById. unfold_prims.
  simpl. now rewrite Hnone.
Qed.

(** With the control the setup attaches the change handler, once. *)
Lemma switcherSetup_with_control (ctl : Select) (w : World) :
  languageSwitcher (document w) = Some ctl ->
  languageSwitcher (document (exec switcherSetup w))
  = Some (mkSelect (value ctl) (changeListeners ctl ++ [CbSwitcherChange])).
Proof.
  intros Hsome. unfold switcherSetup, getElementById. unfold_prims.
  simpl. rewrite Hsome. simpl. now rewrite Hsome.
Qed.

(** ** Startup *)

Lemma initRTLDetection_run (w : World) :
  run initRTLDetection w =
    match run detectAndApplyLayout (started w) with
    | (w', Normal _) => (installed w', Normal tt)
    | (w', Throw e) => (w', Throw e)
    end.
Proof.
  unfold initRTLDetection, observeLanguageChanges, observeGoogleTranslate,
    started, installed, updated, root, run.
  unfold bind at 1. unfold emit at 1. unfold bind at 1.
  unfold console_log at 1. unfold emit at 1.
  cbn [document translatePage RTLDetector observers timeouts intervals trace].
  rewrite withElement_same, <- app_assoc. cbn [app].
  unfold bind at 1.
  destruct (detectAndApplyLayout _) as [w' [[]|e]]; [|reflexivity].
  unfold_prims. cbn. rewrite <- !app_assoc. reflexivity.
Qed.

(** When the first reconcile returns, [initRTLDetection] starts the sweep,
    every 1000 ms, and both observers; when it throws, none of them. *)
Lemma initRTLDetection_installs_sweep (w : World) :
  (completion detectAndApplyLayout (started w) = Normal tt ->
   intervals (exec initRTLDetection w) = (intervals w ++ [(CbSweep, 1000)])%list
   /\ completion initRTLDetection w = Normal tt)
  /\ (forall e, completion detectAndApplyLayout (started w) = Throw e ->
      intervals (exec initRTLDetection w) = intervals w
      /\ observers (exec initRTLDetection w) = observers w
      /\ completion initRTLDetection w = Throw e).
Proof.
  pose proof (detectAndApplyLayout_run (started w)) as Hrun.
  assert (Hi : intervals (applied (started w)) = intervals w
               /\ observers (applied (started w)) = observers w).
  { unfold applied. destruct (isRTLLanguage _); split; reflexivity. }
  destruct Hi as [Hi Ho].
  unfold exec, completion. fold (run initRTLDetection w).
  fold (run detectAndApplyLayout (started w)).
  rewrite initRTLDetection_run, Hrun.
  destruct (translatePage (started w)) as [| |f].
  - split; [intros _; cbn; now rewrite Hi | discriminate].
  - split; [intros _; cbn; now rewrite Hi | discriminate].
  - rewrite callHook_run.
    destruct (snd (f _ _)) as [thrown|]; split; try discriminate.
    + intros e He. inversion He; subst. cbn. now rewrite Hi, Ho.
    + intros _. cbn. now rewrite Hi.
Qed.

(** What the top level adds after [initRTLDetection] when the document is
    no longer loading. *)
Lemma script_run_late (w : World) :
  String.eqb (readyState (document w)) "loading" = false ->
  run script w =
    match run initRTLDetection w with
    | (w', Normal _) =>
        (mkWorld
           (mkDocument (phase (document w')) (documentElement (document w'))
              (descendants (document w')) (languageSwitcher (document w'))
              (listeners (document w') ++ [("DOMContentLoaded", CbSwitcherSetup)]))
           (translatePage w')
           (Some [F_isRTLLanguage; F_applyRTL; F_applyLTR; F_detectAndApplyLayout])
           (observers w') (timeouts w') (intervals w') (trace w'),
         Normal tt)
    | (w', Throw e) => (w', Throw e)
    end.
Proof.
  intros Hready. unfold script, run.
  unfold bind at 1. unfold getDocument at 1. rewrite Hready.
  unfold bind at 1.
  destruct (initRTLDetection w) as [w' [[]|e]]; reflexivity.
Qed.

(** A script that starts after DOMContentLoaded never attaches the change
    handler (no hook registered): the control is as it was, while the sweep
    is started. *)
Lemma startup_late_leaves_control (w : World) :
  domContentLoadedPending (phase (document w)) = false ->
  isFunction (translatePage w) = false ->
  languageSwitcher (document (exec startup w)) = languageSwitcher (document w)
  /\ intervals (exec startup w) = (intervals w ++ [(CbSweep, 1000)])%list.
Proof.
  intros Hlate Hno.
  assert (Hready : String.eqb (readyState (document w)) "loading" = false).
  { unfold readyState. destruct (phase (document w)); try discriminate; reflexivity. }
  assert (Hinit : run initRTLDetection w = (installed (applied (started w)), Normal tt)).
  { rewrite initRTLDetection_run, detectAndApplyLayout_run.
    change (translatePage (started w)) with (translatePage w).
    destruct (translatePage w); [reflexivity | reflexivity | discriminate]. }
  assert (Hsw : languageSwitcher (document (installed (applied (started w))))
                = languageSwitcher (document w)
                /\ intervals (installed (applied (started w)))
                   = (intervals w ++ [(CbSweep, 1000)])%list).
  { unfold installed, applied. destruct (isRTLLanguage _); split; reflexivity. }
  assert (Hstart : exec startup w = exec script w).
  { unfold startup, exec, reported, bind, getDocument, skip, ret.
    rewrite Hlate. now destruct (script w). }
  rewrite Hstart. unfold exec. fold (run script w).
  rewrite (script_run_late w Hready), Hinit. exact Hsw.
Qed.

(** C8, at the failing start. A page with the selector control whose script
    runs after DOMContentLoaded (readyState complete): initRTLDetection runs
    at once, but the listener that would attach the change handler is
    registered for an event that is not dispatched again, so the control has
    no change handler and a selection leaves the language attribute as it
    was. The same page with the script run during parsing gets the handler,
    once, and a selection writes the language attribute. *)
Theorem switcher_setup_missed_when_loaded :
  let late := exec startup (switcherPage Loaded) in
  let early := exec startup (switcherPage Parsing) in
  readyState (document (switcherPage Loaded)) = "complete"
  /\ intervals late = [(CbSweep, 1000)]
  /\ languageSwitcher (document late) = Some (mkSelect "en" [])
  /\ listeners (document late) = [("DOMContentLoaded", CbSwitcherSetup)]
  /\ langOf (exec (userSelects "ar") late) = Some "en"
  /\ intervals early = [(CbSweep, 1000)]
  /\ languageSwitcher (document early) = Some (mkSelect "en" [CbSwitcherChange])
  /\ langOf (exec (userSelects "ar") early) = Some "ar".
Proof. cbv zeta. repeat split. Qed.

(** ** The scenarios of the spec, run *)

(** A: the language starts as en: direction ltr, no marker. *)
Example scenario_A :
  let w := exec startup (scenarioPage "en" []) in
  dirOf w = Some "ltr" /\ marked w = false.
Proof. vm_compute. split; reflexivity. Qed.

(** B: the language is set to ar; the attribute observer gets the record,
    direction becomes rtl, the marker is there, and the hook is called with
    ar. *)
Example scenario_B :
  let w := exec (startup ;; externalSetLang "ar" ;; deliver RootTarget [langChange])
             (scenarioPage "en" []) in
  dirOf w = Some "rtl" /\ marked w = true
  /\ last (trace w) (Called F_isRTLLanguage) = Hooked (Some "ar").
Proof. vm_compute. repeat split. Qed.

(** D: something forces the direction to ltr while the language stays ar,
    and no record reaches the observer: the next tick puts rtl back. *)
Example scenario_D :
  let forced := exec (startup ;; externalSetAttribute "dir" "ltr")
                  (scenarioPage "ar" []) in
  dirOf forced = Some "ltr"
  /\ dirOf (exec (call CbSweep noArgs) forced) = Some "rtl".
Proof. vm_compute. split; reflexivity. Qed.

(** E: the widget's frame is in the body when children are inserted: a
    reconcile call is pending, and runs when its time comes. *)
Example scenario_E :
  let below := [Elem ["skiptranslate"] [Elem [widgetClass] []]] in
  let idle := exec startup (scenarioPage "ar" below) in
  let pending := exec (deliver BodyTarget [childInsertion]) idle in
  let fired := exec fireTimeout pending in
  timeouts idle = []
  /\ timeouts pending = [(CbDetectAndApplyLayout, 500)]
  /\ timeouts fired = []
  /\ reconciles (trace fired) = 1 + reconciles (trace pending).
Proof. vm_compute. repeat split. Qed.

(** F: a class edit at the root reaches no callback. *)
Example scenario_F :
  let idle := exec startup (scenarioPage "ar" []) in
  run (deliver RootTarget [classChange]) idle = (idle, Normal tt).
Proof. vm_compute. reflexivity. Qed.

(** * Further properties of the script *)

(** ** The classifier and the shape of a code *)

Lemma toLowerCase_app (s t : string) :
  JsString.toLowerCase (s ++ t) = (JsString.toLowerCase s ++ JsString.toLowerCase t)%string.
Proof. induction s as [|c r IH]; simpl; [reflexivity | now rewrite IH]. Qed.

Lemma toLowerCase_empty (s : string) :
  JsString.toLowerCase s = "" <-> s = "".
Proof. destruct s; simpl; split; (reflexivity || discriminate). Qed.

Lemma beforeFirst_append (sep : ascii) (s rest : string) :
  JsString.beforeFirst sep (s ++ String sep rest) = JsString.beforeFirst sep s.
Proof.
  induction s as [|c r IH]; simpl.
  - now rewrite Ascii.eqb_refl.
  - destruct (Ascii.eqb c sep); [reflexivity | now rewrite IH].
Qed.

Lemma beforeFirst_idem (sep : ascii) (s : string) :
  JsString.beforeFirst sep (JsString.beforeFirst sep s) = JsString.beforeFirst sep s.
Proof.
  induction s as [|c r IH]; simpl; [reflexivity|].
  destruct (Ascii.eqb c sep) eqn:E; simpl; [reflexivity|].
  now rewrite E, IH.
Qed.

(** Lower-casing never makes or removes a hyphen. *)
Lemma lowerUnit_hyphen (c : ascii) :
  Ascii.eqb (JsString.lowerUnit c) hyphen = Ascii.eqb c hyphen.
Proof. destruct c as [[] [] [] [] [] [] [] []]; reflexivity. Qed.

Lemma beforeFirst_toLowerCase (s : string) :
  JsString.beforeFirst hyphen (JsString.toLowerCase s)
  = JsString.toLowerCase (JsString.beforeFirst hyphen s).
Proof.
  induction s as [|c r IH]; simpl; [reflexivity|].
  rewrite lowerUnit_hyphen. destruct (Ascii.eqb c hyphen); simpl; [reflexivity|].
  now rewrite IH.
Qed.

Lemma primarySubtag_idem (s : string) :
  primarySubtag (primarySubtag s) = primarySubtag s.
Proof.
  unfold primarySubtag.
  rewrite (beforeFirst_toLowerCase s), toLowerCase_idem.
  rewrite <- (beforeFirst_toLowerCase s). apply beforeFirst_idem.
Qed.

Lemma isRTLLanguage_empty_subtag (s : string) :
  primarySubtag s = "" -> isRTLLanguage (Some s) = false.
Proof.
  intros H. unfold isRTLLanguage. destruct (falsy (Some s)); [reflexivity|].
  cbv zeta. rewrite split_head. fold (primarySubtag s). now rewrite H.
Qed.

(** X1. The verdict of a code is the verdict of its lower-cased primary
    subtag, whatever the code: so lower-casing a code, or appending a hyphen
    and any suffix (region, script, anything) to it, never changes the
    verdict. *)
Theorem isRTLLanguage_primary_subtag_only (s suffix : string) :
  isRTLLanguage (Some s) = isRTLLanguage (Some (primarySubtag s))
  /\ isRTLLanguage (Some (JsString.toLowerCase s)) = isRTLLanguage (Some s)
  /\ isRTLLanguage (Some (s ++ String hyphen suffix)) = isRTLLanguage (Some s).
Proof.
  assert (Hsub : forall t, isRTLLanguage (Some t) = isRTLLanguage (Some (primarySubtag t))).
  { intros t. destruct (string_dec (primarySubtag t) "") as [He|Hne].
    - rewrite He. now rewrite isRTLLanguage_empty_subtag.
    - apply isRTLLanguage_by_subtag.
      + intros ->. now apply Hne.
      + exact Hne.
      + symmetry. apply primarySubtag_idem. }
  split; [apply Hsub|]. split.
  - rewrite (Hsub (JsString.toLowerCase s)), (Hsub s). f_equal. f_equal.
    unfold primarySubtag. now rewrite toLowerCase_idem.
  - rewrite (Hsub (s ++ String hyphen suffix)%string), (Hsub s). f_equal. f_equal.
    unfold primarySubtag. rewrite toLowerCase_app. simpl.
    change (JsString.lowerUnit hyphen) with hyphen. apply beforeFirst_append.
Qed.

(** ** What the appliers establish, and what they leave *)

Lemma setAttribute_overwrite (name u v : string) (attrs : Attrs) :
  setAttribute name v (setAttribute name u attrs) = setAttribute name v attrs.
Proof.
  induction attrs as [|[n x] rest IH]; simpl.
  - now rewrite String.eqb_refl.
  - destruct (String.eqb n name) eqn:E; simpl; rewrite E; [reflexivity|].
    now rewrite IH.
Qed.

Lemma contains_app (t : string) (xs ys : list string) :
  contains t (xs ++ ys) = contains t xs || contains t ys.
Proof. unfold contains. apply existsb_app. Qed.

Lemma contains_tokenAdd_other (token other : string) (tokens : list string) :
  other <> token ->
  contains other (tokenAdd token tokens) = contains other tokens.
Proof.
  intros Hne. unfold tokenAdd. destruct (contains token tokens); [reflexivity|].
  rewrite contains_app. unfold contains at 2. simpl.
  apply String.eqb_neq in Hne. rewrite Hne. now rewrite !orb_false_r.
Qed.

Lemma contains_tokenRemove_other (token other : string) (tokens : list string) :
  other <> token ->
  contains other (tokenRemove token tokens) = contains other tokens.
Proof.
  intros Hne. unfold contains, tokenRemove.
  induction tokens as [|t rest IH]; simpl; [reflexivity|].
  destruct (String.eqb t token) eqn:E; simpl.
  - apply String.eqb_eq in E. subst t.
    apply String.eqb_neq in Hne. now rewrite Hne.
  - now rewrite IH.
Qed.

Lemma tokenRemove_app (token : string) (xs ys : list string) :
  tokenRemove token (xs ++ ys) = (tokenRemove token xs ++ tokenRemove token ys)%list.
Proof. unfold tokenRemove. apply filter_app. Qed.

Lemma tokenRemove_tokenAdd (token : string) (tokens : list string) :
  tokenRemove token (tokenAdd token tokens) = tokenRemove token tokens.
Proof.
  unfold tokenAdd. destruct (contains token tokens); [reflexivity|].
  rewrite tokenRemove_app. unfold tokenRemove at 2. simpl.
  rewrite String.eqb_refl. simpl. apply app_nil_r.
Qed.

Lemma exec_applyRTL (w : World) :
  exec applyRTL w = updated (rtlElement (root w)) rtlEvents w.
Proof. unfold exec. fold (run applyRTL w). now rewrite applyRTL_run. Qed.

Lemma exec_applyLTR (w : World) :
  exec applyLTR w = updated (ltrElement (root w)) ltrEvents w.
Proof. unfold exec. fold (run applyLTR w). now rewrite applyLTR_run. Qed.

(** X2. From every state applyRTL leaves direction rtl with the marker and
    applyLTR leaves direction ltr without it; both complete; and neither
    touches anything else: every attribute of the root other than dir
    (the language among them), every class token other than rtl-mode, and
    the rest of the document and of the window stay as they were. *)
Theorem appliers_establish_and_frame (w : World) (name token : string) :
  name <> "dir" -> token <> "rtl-mode" ->
  let r := exec applyRTL w in
  let l := exec applyLTR w in
  (dirOf r = Some "rtl" /\ marked r = true /\ completion applyRTL w = Normal tt)
  /\ (dirOf l = Some "ltr" /\ marked l = false /\ completion applyLTR w = Normal tt)
  /\ getAttribute name (attributes (root r)) = getAttribute name (attributes (root w))
  /\ getAttribute name (attributes (root l)) = getAttribute name (attributes (root w))
  /\ contains token (classList (root r)) = contains token (classList (root w))
  /\ contains token (classList (root l)) = contains token (classList (root w))
  /\ untraced (withDocument (withElement (root w) (document r)) r) = untraced w
  /\ untraced (withDocument (withElement (root w) (document l)) l) = untraced w.
Proof.
  intros Hname Htoken. cbv zeta. rewrite exec_applyRTL, exec_applyLTR.
  split.
  { split; [apply dirOf_updated_rtl|]. split; [apply marked_updated_rtl|].
    unfold completion. fold (run applyRTL w). now rewrite applyRTL_run. }
  split.
  { split; [apply dirOf_updated_ltr|]. split; [apply marked_updated_ltr|].
    unfold completion. fold (run applyLTR w). now rewrite applyLTR_run. }
  unfold updated, rtlElement, ltrElement, root, untraced. simpl.
  split; [now apply getAttribute_setAttribute_other|].
  split; [now apply getAttribute_setAttribute_other|].
  split; [now apply contains_tokenAdd_other|].
  split; [now apply contains_tokenRemove_other|].
  destruct w as [d tp ex obs tos ivs tr]. destruct d. split; reflexivity.
Qed.

Lemma appliers_establish_and_frame_witness :
  langOf (exec applyRTL englishPage) = Some "en"
  /\ langOf (exec applyLTR arabicUnmarkedPage) = Some "ar"
  /\ contains "dark" (classList (root (exec applyLTR arabicUnmarkedPage))) = true.
Proof.
  destruct (appliers_establish_and_frame englishPage "lang" "dark")
    as (_ & _ & Hr & _); [discriminate | discriminate |].
  destruct (appliers_establish_and_frame arabicUnmarkedPage "lang" "dark")
    as (_ & _ & _ & Hl & _ & Hc & _); [discriminate | discriminate |].
  split; [exact Hr|]. split; [exact Hl | exact Hc].
Defined.

(** X3. The last applier wins. applyLTR after applyRTL leaves the state
    applyLTR alone leaves; applyRTL after applyLTR leaves the attributes
    applyRTL alone leaves and the same class tokens (the marker may then
    stand at the end of the list instead of its old place). *)
Theorem last_applier_wins (w : World) :
  untraced (exec (applyRTL ;; applyLTR) w) = untraced (exec applyLTR w)
  /\ attributes (root (exec (applyLTR ;; applyRTL) w))
     = attributes (root (exec applyRTL w))
  /\ (forall t : string,
        contains t (classList (root (exec (applyLTR ;; applyRTL) w)))
        = contains t (classList (root (exec applyRTL w)))).
Proof.
  rewrite !exec_bind_unit;
    try (unfold completion; fold (run applyRTL w); fold (run applyLTR w);
         rewrite ?applyRTL_run, ?applyLTR_run; reflexivity).
  rewrite !exec_applyRTL, !exec_applyLTR.
  unfold updated, rtlElement, ltrElement, root, untraced. simpl.
  split.
  { now rewrite setAttribute_overwrite, tokenRemove_tokenAdd. }
  split; [apply setAttribute_overwrite|].
  intros t. destruct (string_dec t "rtl-mode") as [->|Hne].
  - now rewrite !contains_tokenAdd.
  - rewrite !contains_tokenAdd_other by assumption.
    now apply contains_tokenRemove_other.
Qed.

(** ** Ticks and reconcile calls in a row *)

Lemma directionCorrect_dec (w : World) :
  directionCorrect w \/ ~ directionCorrect w.
Proof.
  unfold directionCorrect.
  destruct (isRTLLanguage (langOf w));
    destruct (strictEq (dirOf w) (Some "rtl")) eqn:Hdir.
  - left. apply strictEq_Some in Hdir. now split.
  - right. intros [_ H]. specialize (H eq_refl).
    apply strictEq_Some in H. congruence.
  - right. apply strictEq_Some in Hdir. intros [H _]. specialize (H Hdir).
    discriminate.
  - left. split; [|discriminate]. intros H. apply strictEq_Some in H. congruence.
Qed.

Lemma sweep_markerCorrect_when_acting (w : World) :
  ~ directionCorrect w -> markerCorrect (exec sweep w).
Proof.
  intros Hbad. unfold markerCorrect. rewrite sweep_keeps_lang, sweep_exec.
  destruct (isRTLLanguage (langOf w)) eqn:Hrtl;
    destruct (strictEq (dirOf w) (Some "rtl")) eqn:Hdir; cbn [andb negb].
  - exfalso. apply Hbad. unfold directionCorrect. rewrite Hrtl.
    apply strictEq_Some in Hdir. now split.
  - apply marked_updated_rtl.
  - apply marked_updated_ltr.
  - exfalso. apply Hbad. unfold directionCorrect. rewrite Hrtl.
    split; [|discriminate]. intros H. apply strictEq_Some in H. congruence.
Qed.

(** X4. A sweep tick either changes nothing at all or leaves both the
    direction and the marker as the verdict asks; and a second tick right
    after a tick does nothing, so two ticks in a row are one tick, console
    included. *)
Theorem sweep_tick_settles (w : World) :
  (run sweep w = (w, Normal tt)
   \/ (directionCorrect (exec sweep w) /\ markerCorrect (exec sweep w)))
  /\ run (sweep ;; sweep) w = run sweep w.
Proof.
  split.
  - destruct (directionCorrect_dec w) as [Hok|Hbad].
    + left. now apply sweep_noop.
    + right. split; [apply sweep_directionCorrect|].
      now apply sweep_markerCorrect_when_acting.
  - pose proof (sweep_noop (exec sweep w) (sweep_directionCorrect w)) as Hnoop.
    pose proof (sweep_completes w) as Hc.
    unfold run, exec, completion, bind in *.
    destruct (sweep w) as [w' c]. simpl in *. subst c. exact Hnoop.
Qed.

(** ** Reconcile without a hook *)

Lemma detectAndApplyLayout_exec_nohook (w : World) :
  isFunction (translatePage w) = false ->
  run detectAndApplyLayout w = (applied w, Normal tt).
Proof.
  intros Hno. rewrite detectAndApplyLayout_run.
  destruct (translatePage w); [reflexivity | reflexivity | discriminate].
Qed.

Lemma applied_keeps_hook (w : World) : translatePage (applied w) = translatePage w.
Proof. unfold applied. now destruct (isRTLLanguage (langOf w)). Qed.

(** The state [applied] leaves depends on the state it starts from, not on
    the trace. *)
Lemma applied_untraced (u w : World) :
  untraced u = untraced w -> untraced (applied u) = untraced (applied w).
Proof.
  intros H. unfold untraced in H. inversion H as [[Hd Htp Hex Hobs Hto Hiv]].
  unfold applied, langOf, root, updated, untraced. rewrite Hd.
  destruct (isRTLLanguage _); simpl; now rewrite Htp, Hex, Hobs, Hto, Hiv.
Qed.

Lemma applied_idem (w : World) : untraced (applied (applied w)) = untraced (applied w).
Proof.
  pose proof (applied_lang w) as Hl.
  unfold applied at 1. rewrite Hl. unfold applied.
  destruct (isRTLLanguage (langOf w)); unfold updated, untraced, root; simpl.
  - now rewrite rtlElement_idem.
  - now rewrite ltrElement_idem.
Qed.

(** X5. With no hook function registered, reconcile completes, leaves
    direction and marker as the verdict asks and the language as it was;
    calling it again changes nothing but the console, and a sweep tick
    after it finds nothing to do. *)
Theorem reconcile_settles_without_hook (w : World) :
  isFunction (translatePage w) = false ->
  let after := exec detectAndApplyLayout w in
  completion detectAndApplyLayout w = Normal tt
  /\ directionCorrect after /\ markerCorrect after /\ langOf after = langOf w
  /\ untraced (exec (detectAndApplyLayout ;; detectAndApplyLayout) w) = untraced after
  /\ run sweep after = (after, Normal tt).
Proof.
  intros Hno. cbv zeta.
  pose proof (detectAndApplyLayout_exec_nohook w Hno) as Hrun.
  assert (Hexec : exec detectAndApplyLayout w = applied w).
  { unfold exec. fold (run detectAndApplyLayout w). now rewrite Hrun. }
  rewrite Hexec.
  split; [unfold completion; fold (run detectAndApplyLayout w); now rewrite Hrun|].
  split; [apply applied_directionCorrect|].
  split; [apply applied_markerCorrect|].
  split; [apply applied_lang|].
  split.
  - rewrite exec_bind_unit
      by (unfold completion; fold (run detectAndApplyLayout w); now rewrite Hrun).
    rewrite Hexec. unfold exec. fold (run detectAndApplyLayout (applied w)).
    rewrite detectAndApplyLayout_exec_nohook by now rewrite applied_keeps_hook.
    apply applied_idem.
  - apply sweep_noop, applied_directionCorrect.
Qed.

Lemma reconcile_settles_without_hook_witness :
  dirOf (exec detectAndApplyLayout arabicForcedLtrPage) = Some "rtl"
  /\ marked (exec detectAndApplyLayout arabicForcedLtrPage) = true.
Proof.
  destruct (reconcile_settles_without_hook arabicForcedLtrPage eq_refl)
    as (_ & Hd & Hm & _).
  split; [now apply Hd | exact Hm].
Defined.

(** ** A batch of language mutations *)

Lemma logged_untraced (w : World) : untraced (logged w) = untraced w.
Proof. unfold logged, updated, untraced, root. simpl. now rewrite withElement_same. Qed.

Lemma langObserverCallback_step_nohook (m : MutationRecord) (ms : list MutationRecord)
    (w : World) :
  isFunction (translatePage w) = false ->
  run (langObserverCallback (m :: ms)) w =
    run (langObserverCallback ms)
      (if isLangMutation m then applied (logged w) else w).
Proof.
  intros Hno. rewrite langObserverCallback_cons.
  destruct (isLangMutation m); unfold run, bind.
  - fold (run onLangMutation w). rewrite onLangMutation_run.
    now rewrite detectAndApplyLayout_exec_nohook.
  - reflexivity.
Qed.

Lemma langObserverCallback_state_nohook (batch : list MutationRecord) :
  forall w : World,
    isFunction (translatePage w) = false ->
    untraced (exec (langObserverCallback batch) w) =
      if existsb isLangMutation batch then untraced (applied w) else untraced w.
Proof.
  induction batch as [|m ms IH]; intros w Hno; [reflexivity|].
  assert (Hstep : exec (langObserverCallback (m :: ms)) w
                  = exec (langObserverCallback ms)
                      (if isLangMutation m then applied (logged w) else w)).
  { unfold exec. fold (run (langObserverCallback (m :: ms)) w).
    now rewrite langObserverCallback_step_nohook. }
  rewrite Hstep.
  cbn [existsb]. destruct (isLangMutation m); cbn [orb].
  - rewrite IH by (rewrite applied_keeps_hook; exact Hno).
    assert (H1 : untraced (applied (logged w)) = untraced (applied w))
      by apply applied_untraced, logged_untraced.
    rewrite applied_idem, H1. now destruct (existsb isLangMutation ms).
  - now apply IH.
Qed.

(** X6. With no hook function registered, a batch delivered to the
    attribute observer leaves the state one call of reconcile leaves if it
    holds a language mutation, however many it holds, and the state it
    found if it holds none; only the console tells the difference. *)
Theorem langObserver_batch_is_one_reconcile (batch : list MutationRecord) (w : World) :
  isFunction (translatePage w) = false ->
  untraced (exec (langObserverCallback batch) w) =
    if existsb isLangMutation batch
    then untraced (exec detectAndApplyLayout w)
    else untraced w.
Proof.
  intros Hno. rewrite langObserverCallback_state_nohook by assumption.
  unfold exec at 1. fold (run detectAndApplyLayout w).
  now rewrite detectAndApplyLayout_exec_nohook.
Qed.

Lemma langObserver_batch_is_one_reconcile_witness :
  untraced (exec (langObserverCallback [langChange; classChange; langChange; langChange])
              arabicForcedLtrPage)
  = untraced (exec detectAndApplyLayout arabicForcedLtrPage).
Proof.
  exact (langObserver_batch_is_one_reconcile
           [langChange; classChange; langChange; langChange]
           arabicForcedLtrPage eq_refl).
Defined.

(** ** Marker and direction stay in step *)

Lemma inStep_by_root (u w : World) : root u = root w -> inStep w -> inStep u.
Proof. unfold inStep, marked, dirOf. now intros ->. Qed.

Lemma inStep_updated_rtl (w : World) (evs : list Event) :
  inStep (updated (rtlElement (root w)) evs w).
Proof. unfold inStep. now rewrite marked_updated_rtl, dirOf_updated_rtl. Qed.

Lemma inStep_updated_ltr (w : World) (evs : list Event) :
  inStep (updated (ltrElement (root w)) evs w).
Proof. unfold inStep. now rewrite marked_updated_ltr, dirOf_updated_ltr. Qed.

Lemma inStep_applied (w : World) : inStep (applied w).
Proof.
  unfold applied. destruct (isRTLLanguage (langOf w));
    [apply inStep_updated_rtl | apply inStep_updated_ltr].
Qed.

Lemma untraced_root (u w : World) : untraced u = untraced w -> root u = root w.
Proof. unfold untraced, root. intros H. now inversion H. Qed.

(** X7. The script never puts marker and direction out of step. Each
    applier leaves the marker there exactly when the direction is rtl, and
    so does reconcile without a hook; and from a state where they are in
    step, a sweep tick, the switch handler, the widget observer's callback
    and (without a hook) the attribute observer's callback over any batch
    leave them in step. A marker that disagrees with the direction comes
    from outside the script. *)
Theorem script_keeps_marker_in_step
    (w : World) (batch : list MutationRecord) (this : Select) :
  inStep (exec applyRTL w)
  /\ inStep (exec applyLTR w)
  /\ (isFunction (translatePage w) = false -> inStep (exec detectAndApplyLayout w))
  /\ (inStep w ->
      inStep (exec sweep w)
      /\ inStep (exec (switcherChange this) w)
      /\ inStep (exec bodyObserverCallback w)
      /\ (isFunction (translatePage w) = false ->
          inStep (exec (langObserverCallback batch) w))).
Proof.
  split; [rewrite exec_applyRTL; apply inStep_updated_rtl|].
  split; [rewrite exec_applyLTR; apply inStep_updated_ltr|].
  split.
  { intros Hno. unfold exec. fold (run detectAndApplyLayout w).
    rewrite detectAndApplyLayout_exec_nohook by assumption. apply inStep_applied. }
  intros Hin. split.
  { rewrite sweep_exec.
    destruct (isRTLLanguage _ && negb _); [apply inStep_updated_rtl|].
    destruct (negb _ && strictEq _ _); [apply inStep_updated_ltr | assumption]. }
  split.
  { destruct (switcherChange_frame this w) as (_ & Hd & Hc & _).
    unfold inStep, marked in *. now rewrite Hd, Hc. }
  split.
  { apply inStep_by_root with (w := w); [|assumption].
    unfold exec. fold (run bodyObserverCallback w). rewrite bodyObserverCallback_run.
    now destruct (querySelector _ _). }
  intros Hno.
  pose proof (langObserverCallback_state_nohook batch w Hno) as Hst.
  destruct (existsb isLangMutation batch).
  - apply inStep_by_root with (w := applied w);
      [now apply untraced_root | apply inStep_applied].
  - apply inStep_by_root with (w := w); [now apply untraced_root | assumption].
Qed.

Lemma script_keeps_marker_in_step_witness :
  inStep englishPage
  /\ inStep (exec sweep englishPage)
  /\ inStep (exec (langObserverCallback [langChange]) englishPage).
Proof.
  assert (Hin : inStep englishPage) by reflexivity.
  destruct (script_keeps_marker_in_step englishPage [langChange] (mkSelect "ar" []))
    as (_ & _ & _ & H).
  destruct (H Hin) as (Hs & _ & _ & Hl).
  split; [exact Hin|]. split; [exact Hs | exact (Hl eq_refl)].
Defined.

(** ** Initialisation: all or nothing *)

(** Reconcile registers nothing: observers, timers and the export are as
    before, whatever the hook does. *)
Lemma detectAndApplyLayout_keeps_registrations (w : World) :
  observers (exec detectAndApplyLayout w) = observers w
  /\ intervals (exec detectAndApplyLayout w) = intervals w
  /\ timeouts (exec detectAndApplyLayout w) = timeouts w
  /\ RTLDetector (exec detectAndApplyLayout w) = RTLDetector w.
Proof.
  unfold exec. fold (run detectAndApplyLayout w). rewrite detectAndApplyLayout_run.
  assert (H : observers (applied w) = observers w
              /\ intervals (applied w) = intervals w
              /\ timeouts (applied w) = timeouts w
              /\ RTLDetector (applied w) = RTLDetector w).
  { unfold applied. destruct (isRTLLanguage (langOf w)); repeat split. }
  destruct (translatePage w) as [| |f]; try exact H.
  rewrite callHook_run. exact H.
Qed.

(** What [initRTLDetection] has registered, by its outcome. *)
Lemma initRTLDetection_registrations (w : World) :
  (completion initRTLDetection w = Normal tt ->
   observers (exec initRTLDetection w) = (observers w ++ scriptObservers)%list
   /\ intervals (exec initRTLDetection w) = (intervals w ++ [(CbSweep, 1000)])%list
   /\ timeouts (exec initRTLDetection w) = timeouts w)
  /\ (forall e : string,
        completion initRTLDetection w = Throw e ->
        observers (exec initRTLDetection w) = observers w
        /\ intervals (exec initRTLDetection w) = intervals w
        /\ timeouts (exec initRTLDetection w) = timeouts w)
  /\ (isFunction (translatePage w) = false ->
      completion initRTLDetection w = Normal tt).
Proof.
  destruct (detectAndApplyLayout_keeps_registrations (started w))
    as (Ho & Hi & Ht & _).
  pose proof (detectAndApplyLayout_completes (started w)) as Hc.
  unfold exec, completion in *. fold (run initRTLDetection w).
  rewrite initRTLDetection_run. unfold run.
  destruct (detectAndApplyLayout (started w)) as [w' [[]|e']]; simpl in *.
  - split; [intros _; now rewrite Ho, Hi, Ht|].
    split; [discriminate | reflexivity].
  - split; [discriminate|].
    split; [intros e _; now rewrite Ho, Hi, Ht|].
    intros Hno. now apply Hc.
Qed.



(** ** The script's top level *)

Lemma script_run_loading (w : World) :
  readyState (document w) = "loading" ->
  run script w =
    (mkWorld
       (mkDocument (phase (document w)) (documentElement (document w))
          (descendants (document w)) (languageSwitcher (document w))
          ((listeners (document w) ++ [("DOMContentLoaded", CbInitRTLDetection)])
             ++ [("DOMContentLoaded", CbSwitcherSetup)]))
       (translatePage w) (Some exportedFunctions)
       (observers w) (timeouts w) (intervals w) (trace w),
     Normal tt).
Proof.
  intros Hready. unfold script, run.
  unfold bind at 1. unfold getDocument at 1. rewrite Hready.
  reflexivity.
Qed.

(** X9. The top level of the script. While the document is loading it runs
    nothing: it registers initRTLDetection and then the switcher setup as
    DOMContentLoaded listeners, exports RTLDetector, and leaves the root
    element, the trace, the observers and the timers as they were. In any
    other ready state it runs initRTLDetection at once; if that throws, the
    script ends there: the switcher setup is never registered and
    RTLDetector is never exported. If it completes, the switcher setup is
    registered and RTLDetector exported. *)
Theorem script_top_level (w : World) :
  (readyState (document w) = "loading" ->
   completion script w = Normal tt
   /\ listeners (document (exec script w))
      = (listeners (document w)
           ++ [("DOMContentLoaded", CbInitRTLDetection);
               ("DOMContentLoaded", CbSwitcherSetup)])%list
   /\ RTLDetector (exec script w) = Some exportedFunctions
   /\ root (exec script w) = root w
   /\ trace (exec script w) = trace w
   /\ observers (exec script w) = observers w
   /\ intervals (exec script w) = intervals w)
  /\ (readyState (document w) <> "loading" ->
      forall e : string,
        completion initRTLDetection w = Throw e ->
        run script w = run initRTLDetection w
        /\ RTLDetector (exec script w) = RTLDetector w
        /\ observers (exec script w) = observers w
        /\ intervals (exec script w) = intervals w)
  /\ (readyState (document w) <> "loading" ->
      completion initRTLDetection w = Normal tt ->
      completion script w = Normal tt
      /\ RTLDetector (exec script w) = Some exportedFunctions
      /\ listeners (document (exec script w))
         = (listeners (document (exec initRTLDetection w))
              ++ [("DOMContentLoaded", CbSwitcherSetup)])%list).
Proof.
  split.
  { intros Hready. unfold completion, exec. fold (run script w).
    rewrite (script_run_loading w Hready). cbn [fst snd].
    unfold root. cbn. rewrite <- app_assoc. repeat split. }
  assert (Hlate : readyState (document w) <> "loading" ->
                  run script w =
                    match run initRTLDetection w with
                    | (w', Normal _) =>
                        (mkWorld
                           (mkDocument (phase (document w'))
                              (documentElement (document w'))
                              (descendants (document w'))
                              (languageSwitcher (document w'))
                              (listeners (document w')
                                 ++ [("DOMContentLoaded", CbSwitcherSetup)]))
                           (translatePage w') (Some exportedFunctions)
                           (observers w') (timeouts w') (intervals w') (trace w'),
                         Normal tt)
                    | (w', Throw e) => (w', Throw e)
                    end).
  { intros Hne. apply script_run_late. now apply String.eqb_neq. }
  split.
  - intros Hne e Hthrow. specialize (Hlate Hne).
    destruct (initRTLDetection_registrations w) as (_ & Hnothing & _).
    destruct (Hnothing e Hthrow) as (Ho & Hi & _).
    assert (Hreg : RTLDetector (exec initRTLDetection w) = RTLDetector w).
    { destruct (detectAndApplyLayout_keeps_registrations (started w))
        as (_ & _ & _ & Hex).
      unfold exec in *. fold (run initRTLDetection w).
      rewrite initRTLDetection_run. unfold run.
      destruct (detectAndApplyLayout (started w)) as [w' [[]|e']]; exact Hex. }
    unfold completion, exec in *. fold (run script w). rewrite Hlate.
    unfold run in *. destruct (initRTLDetection w) as [w' [[]|e']];
      simpl in *; [discriminate|].
    repeat split; assumption.
  - intros Hne Hok. specialize (Hlate Hne).
    unfold completion, exec in *. fold (run script w). rewrite Hlate.
    unfold run in *. destruct (initRTLDetection w) as [w' [[]|e']];
      simpl in *; [|discriminate].
    repeat split.
Qed.

Lemma script_top_level_witness :
  (RTLDetector (exec script (failingHookPageAt Parsing)) = Some exportedFunctions
   /\ trace (exec script (failingHookPageAt Parsing)) = [])
  /\ RTLDetector (exec script (failingHookPageAt Loaded)) = None
  /\ RTLDetector (exec script (switcherPage Loaded)) = Some exportedFunctions.
Proof.
  destruct (script_top_level (failingHookPageAt Parsing)) as (Hloading & _ & _).
  destruct (Hloading eq_refl) as (_ & _ & Hex & _ & Htr & _).
  destruct (script_top_level (failingHookPageAt Loaded)) as (_ & Hthrow & _).
  assert (Hne : readyState (document (failingHookPageAt Loaded)) <> "loading")
    by discriminate.
  destruct (Hthrow Hne "translation failed" eq_refl) as (_ & Hex' & _).
  destruct (script_top_level (switcherPage Loaded)) as (_ & _ & Hok).
  assert (Hne' : readyState (document (switcherPage Loaded)) <> "loading")
    by discriminate.
  destruct (Hok Hne' eq_refl) as (_ & Hex'' & _).
  split; [split; assumption|].
  split; [exact Hex' | exact Hex''].
Defined.

(** ** The manual switch, end to end *)

Lemma correct_by_root (u w : World) :
  root u = root w ->
  (directionCorrect w -> directionCorrect u)
  /\ (markerCorrect w -> markerCorrect u)
  /\ langOf u = langOf w.
Proof.
  unfold directionCorrect, markerCorrect, dirOf, marked, langOf.
  intros ->. split; [tauto|]. split; [tauto | reflexivity].
Qed.



(** ** The language attribute is read, not written *)

Lemma initRTLDetection_exec_nohook (w : World) :
  isFunction (translatePage w) = false ->
  run initRTLDetection w = (installed (applied (started w)), Normal tt).
Proof.
  intros Hno. rewrite initRTLDetection_run.
  now rewrite detectAndApplyLayout_exec_nohook.
Qed.

Lemma started_untraced (w : World) : untraced (started w) = untraced w.
Proof. unfold started, updated, untraced, root. simpl. now rewrite withElement_same. Qed.

Lemma root_installed_applied_started (w : World) :
  root (installed (applied (started w))) = root (applied w).
Proof.
  change (root (installed (applied (started w)))) with (root (applied (started w))).
  apply untraced_root, applied_untraced, started_untraced.
Qed.

(** X11. Nothing in the script but the switch handler writes the language
    attribute: the appliers, a sweep tick and the widget observer's
    callback leave it as it is, and so do, with no hook function
    registered, reconcile, the attribute observer's callback over any batch
    and initRTLDetection. *)
Theorem only_the_switch_writes_lang (w : World) (batch : list MutationRecord) :
  langOf (exec applyRTL w) = langOf w
  /\ langOf (exec applyLTR w) = langOf w
  /\ langOf (exec sweep w) = langOf w
  /\ langOf (exec bodyObserverCallback w) = langOf w
  /\ (isFunction (translatePage w) = false ->
      langOf (exec detectAndApplyLayout w) = langOf w
      /\ langOf (exec (langObserverCallback batch) w) = langOf w
      /\ langOf (exec initRTLDetection w) = langOf w).
Proof.
  split; [rewrite exec_applyRTL; apply langOf_updated_rtl|].
  split; [rewrite exec_applyLTR; apply langOf_updated_ltr|].
  split; [apply sweep_keeps_lang|].
  split.
  { unfold exec. fold (run bodyObserverCallback w). rewrite bodyObserverCallback_run.
    now destruct (querySelector _ _). }
  intros Hno. split.
  { unfold exec. fold (run detectAndApplyLayout w).
    rewrite detectAndApplyLayout_exec_nohook by assumption. apply applied_lang. }
  split.
  { pose proof (langObserverCallback_state_nohook batch w Hno) as Hst.
    destruct (existsb isLangMutation batch); apply untraced_root in Hst;
      destruct (correct_by_root _ _ Hst) as (_ & _ & Hl); rewrite Hl;
      [apply applied_lang | reflexivity]. }
  unfold exec. fold (run initRTLDetection w).
  rewrite initRTLDetection_exec_nohook by assumption. cbn [fst].
  destruct (correct_by_root _ _ (root_installed_applied_started w)) as (_ & _ & Hl).
  rewrite Hl. apply applied_lang.
Qed.

Lemma only_the_switch_writes_lang_witness :
  langOf (exec initRTLDetection arabicForcedLtrPage) = Some "ar"
  /\ langOf (exec (langObserverCallback [langChange; langChange]) arabicForcedLtrPage)
     = Some "ar".
Proof.
  destruct (only_the_switch_writes_lang arabicForcedLtrPage [langChange; langChange])
    as (_ & _ & _ & _ & H).
  destruct (H eq_refl) as (_ & Hb & Hi).
  split; [exact Hi | exact Hb].
Defined.

(** ** Startup, in every phase of loading *)

Lemma switcherSetup_run (w : World) :
  run switcherSetup w =
    match languageSwitcher (document w) with
    | Some ctl =>
        (mkWorld
           (mkDocument (phase (document w)) (documentElement (document w))
              (descendants (document w))
              (Some (mkSelect (value ctl) (changeListeners ctl ++ [CbSwitcherChange])))
              (listeners (document w)))
           (translatePage w) (RTLDetector w) (observers w) (timeouts w)
           (intervals w) (trace w ++ [Logged [Some "Language switcher initialized"]]),
         Normal tt)
    | None => (w, Normal tt)
    end.
Proof.
  unfold switcherSetup, getElementById. unfold_prims. simpl.
  destruct (languageSwitcher (document w)) eqn:E; simpl; [now rewrite E | reflexivity].
Qed.

(** [applied] as an update of the root and the trace alone. *)
Lemma applied_shape (w : World) :
  applied w =
    updated (root (applied w))
      (Called F_detectAndApplyLayout
         :: (if isRTLLanguage (langOf w) then rtlEvents else ltrEvents)) w.
Proof. unfold applied. now destruct (isRTLLanguage (langOf w)). Qed.

Lemma applied_root_by_root (u w : World) :
  root u = root w -> root (applied u) = root (applied w).
Proof.
  intros H. unfold applied, langOf. rewrite H.
  destruct (isRTLLanguage _); reflexivity.
Qed.

Lemma startup_exec (w : World) :
  exec startup w =
    if domContentLoadedPending (phase (document w))
    then exec dispatchDOMContentLoaded (exec script w)
    else exec script w.
Proof.
  unfold startup, exec, reported, bind, getDocument, skip, ret.
  destruct (domContentLoadedPending _); now destruct (script w).
Qed.

Lemma dispatchDOMContentLoaded_exec (w : World) :
  exec dispatchDOMContentLoaded w =
    exec (forEach (listeners (document w))
            (fun l => if String.eqb (fst l) "DOMContentLoaded"
                      then reported (call (snd l) noArgs)
                      else skip))
      (atDOMContentLoaded w).
Proof. reflexivity. Qed.

Lemma script_exec_late_nohook (w : World) :
  isFunction (translatePage w) = false ->
  readyState (document w) <> "loading" ->
  exec script w = lateRegistered (installed (applied (started w))).
Proof.
  intros Hno Hne. unfold exec. fold (run script w).
  rewrite script_run_late by now apply String.eqb_neq.
  now rewrite initRTLDetection_exec_nohook.
Qed.

Lemma initCalls_app (xs ys : list Event) :
  initCalls (xs ++ ys) = initCalls xs + initCalls ys.
Proof. unfold initCalls. now rewrite filter_app, length_app. Qed.

(** The world [initRTLDetection] leaves (no hook) when it starts from [u],
    a world with the root, the registrations and the trace of [w]. *)
Lemma installed_facts (u w : World) :
  root u = root w ->
  observers u = observers w -> intervals u = intervals w ->
  timeouts u = timeouts w -> trace u = trace w ->
  root (installed (applied (started u))) = root (applied w)
  /\ observers (installed (applied (started u))) = (observers w ++ scriptObservers)%list
  /\ intervals (installed (applied (started u))) = (intervals w ++ [(CbSweep, 1000)])%list
  /\ timeouts (installed (applied (started u))) = timeouts w
  /\ document (installed (applied (started u)))
     = withElement (root (applied w)) (document u)
  /\ RTLDetector (installed (applied (started u))) = RTLDetector u
  /\ exists evs : list Event,
       trace (installed (applied (started u))) = (trace w ++ evs)%list
       /\ initCalls evs = 1.
Proof.
  intros Hr Ho Hi Ht Htr.
  assert (Hroot : root (applied (started u)) = root (applied w)).
  { apply applied_root_by_root. rewrite <- Hr. unfold started, updated, root.
    reflexivity. }
  rewrite (applied_shape (started u)), Hroot.
  unfold installed, updated, started, root. cbn.
  rewrite Ho, Hi, Ht, Htr.
  repeat split.
  eexists. split; [repeat rewrite <- app_assoc; reflexivity|].
  unfold rtlEvents, ltrEvents. now destruct (isRTLLanguage _).
Qed.

Lemma startedUp_plain (w after : World) :
  root after = root (applied w) ->
  observers after = (observers w ++ scriptObservers)%list ->
  intervals after = (intervals w ++ [(CbSweep, 1000)])%list ->
  timeouts after = timeouts w ->
  RTLDetector after = Some exportedFunctions ->
  languageSwitcher (document after) = languageSwitcher (document w) ->
  (exists evs : list Event,
     trace after = (trace w ++ evs)%list /\ initCalls evs = 1) ->
  startedUp false w after.
Proof.
  intros Hr Ho Hi Ht Hex Hsw Htr. unfold startedUp.
  repeat (split; [assumption|]).
  split; [|exact Htr].
  rewrite Hsw. destruct (languageSwitcher (document w)); simpl; [|reflexivity].
  now rewrite app_nil_r.
Qed.

Lemma startedUp_setup (w before : World) :
  startedUp false w before ->
  startedUp true w (exec switcherSetup before).
Proof.
  unfold startedUp. intros (Hr & Ho & Hi & Ht & Hex & Hsw & evs & Htr & Hone).
  unfold exec. fold (run switcherSetup before). rewrite switcherSetup_run.
  destruct (languageSwitcher (document before)) as [ctl|] eqn:E;
    destruct (languageSwitcher (document w)) as [ctl0|]; simpl in Hsw;
    try discriminate; cbn [fst]; unfold root in *; cbn.
  - repeat (split; [assumption|]). split.
    + inversion Hsw as [Hl]. now rewrite Hl, app_nil_r.
    + exists (evs ++ [Logged [Some "Language switcher initialized"]])%list.
      rewrite Htr, <- app_assoc. split; [reflexivity|].
      rewrite initCalls_app, Hone. reflexivity.
  - rewrite E. repeat (split; [assumption|]). now exists evs.
Qed.

Lemma startedUp_parsing (w : World) :
  isFunction (translatePage w) = false ->
  listeners (document w) = [] ->
  phase (document w) = Parsing ->
  startedUp true w (exec startup w).
Proof.
  intros Hno Hfresh Hp.
  assert (Hscript : exec script w
                    = mkWorld
                        (mkDocument Parsing (documentElement (document w))
                           (descendants (document w)) (languageSwitcher (document w))
                           [("DOMContentLoaded", CbInitRTLDetection);
                            ("DOMContentLoaded", CbSwitcherSetup)])
                        (translatePage w) (Some exportedFunctions)
                        (observers w) (timeouts w) (intervals w) (trace w)).
  { unfold exec. fold (run script w).
    rewrite script_run_loading by (unfold readyState; now rewrite Hp).
    now rewrite Hfresh, Hp. }
  rewrite startup_exec, Hp. cbn [domContentLoadedPending].
  rewrite dispatchDOMContentLoaded_exec, Hscript.
  cbn [document listeners]. cbn [forEach fst snd call].
  change (String.eqb "DOMContentLoaded" "DOMContentLoaded") with true. cbv iota.
  set (w1 := atDOMContentLoaded _).
  assert (Hexec : exec (reported initRTLDetection ;; reported switcherSetup ;; skip) w1
                  = exec switcherSetup (installed (applied (started w1)))).
  { unfold exec, reported, bind, skip, ret.
    fold (run initRTLDetection w1). rewrite initRTLDetection_exec_nohook by exact Hno.
    cbn [fst snd]. now destruct (switcherSetup _). }
  rewrite Hexec. apply startedUp_setup.
  destruct (installed_facts w1 w) as (Hr & Ho & Hi & Ht & Hd & Hex & Htr);
    try reflexivity.
  apply startedUp_plain; try assumption.
  now rewrite Hd.
Qed.

Lemma startedUp_interactive (w : World) :
  isFunction (translatePage w) = false ->
  listeners (document w) = [] ->
  phase (document w) = ParsedBeforeDOMContentLoaded ->
  startedUp true w (exec startup w).
Proof.
  intros Hno Hfresh Hp.
  assert (Hne : readyState (document w) <> "loading")
    by (unfold readyState; rewrite Hp; discriminate).
  destruct (installed_facts w w) as (Hr & Ho & Hi & Ht & Hd & Hex & Htr);
    try reflexivity.
  rewrite startup_exec, Hp. cbn [domContentLoadedPending].
  rewrite dispatchDOMContentLoaded_exec, script_exec_late_nohook by assumption.
  unfold lateRegistered at 1. cbn [document listeners].
  rewrite Hd. cbn [withElement listeners]. rewrite Hfresh.
  cbn [app forEach fst snd call].
  change (String.eqb "DOMContentLoaded" "DOMContentLoaded") with true. cbv iota.
  set (w1 := atDOMContentLoaded _).
  assert (Hexec : exec (reported switcherSetup ;; skip) w1 = exec switcherSetup w1).
  { unfold exec, reported, bind, skip, ret. now destruct (switcherSetup w1). }
  rewrite Hexec. apply startedUp_setup.
  apply startedUp_plain; try assumption; try reflexivity.
  unfold w1, atDOMContentLoaded, lateRegistered, withDocument.
  cbn [document languageSwitcher]. now rewrite Hd.
Qed.

Lemma startedUp_late (w : World) :
  isFunction (translatePage w) = false ->
  domContentLoadedPending (phase (document w)) = false ->
  startedUp false w (exec startup w).
Proof.
  intros Hno Hlate.
  assert (Hne : readyState (document w) <> "loading").
  { unfold readyState. destruct (phase (document w)); discriminate. }
  destruct (installed_facts w w) as (Hr & Ho & Hi & Ht & Hd & Hex & Htr);
    try reflexivity.
  rewrite startup_exec, Hlate, script_exec_late_nohook by assumption.
  apply startedUp_plain; try assumption; try reflexivity.
  unfold lateRegistered. cbn [document languageSwitcher]. now rewrite Hd.
Qed.

(** X12. Startup without a hook, on a page with no listener of its own
    yet, whatever the ready state when the script runs: initRTLDetection
    runs exactly once, so there is one sweep timer and one pair of
    observers, never two; RTLDetector is exported; direction and marker
    are as the verdict for the page's language asks, and the language is
    untouched. The selector control, if there is one, gets the change
    handler exactly when DOMContentLoaded was still to come. *)
Theorem startup_initializes_once (w : World) :
  isFunction (translatePage w) = false ->
  listeners (document w) = [] ->
  let after := exec startup w in
  initCalls (events startup w) = 1
  /\ observers after = (observers w ++ scriptObservers)%list
  /\ intervals after = (intervals w ++ [(CbSweep, 1000)])%list
  /\ timeouts after = timeouts w
  /\ RTLDetector after = Some exportedFunctions
  /\ directionCorrect after /\ markerCorrect after /\ langOf after = langOf w
  /\ option_map changeListeners (languageSwitcher (document after))
     = option_map
         (fun ctl => changeListeners ctl
                       ++ if domContentLoadedPending (phase (document w))
                          then [CbSwitcherChange] else [])%list
         (languageSwitcher (document w)).
Proof.
  intros Hno Hfresh. cbv zeta.
  assert (H : startedUp (domContentLoadedPending (phase (document w))) w
                (exec startup w)).
  { destruct (phase (document w)) eqn:Hp; cbn [domContentLoadedPending].
    - now apply startedUp_parsing.
    - now apply startedUp_interactive.
    - apply startedUp_late; [assumption | now rewrite Hp].
    - apply startedUp_late; [assumption | now rewrite Hp]. }
  destruct H as (Hr & Ho & Hi & Ht & Hex & Hsw & evs & Htr & Hone).
  destruct (correct_by_root _ _ Hr) as (Hdc & Hmc & Hl).
  split; [now rewrite (events_of_trace _ _ _ Htr)|].
  repeat (split; [assumption|]).
  split; [apply Hdc, applied_directionCorrect|].
  split; [apply Hmc, applied_markerCorrect|].
  split; [rewrite Hl; apply applied_lang | exact Hsw].
Qed.

Lemma startup_initializes_once_witness :
  (intervals (exec startup (switcherPage Parsing)) = [(CbSweep, 1000)]
   /\ option_map changeListeners
        (languageSwitcher (document (exec startup (switcherPage Parsing))))
      = Some [CbSwitcherChange])
  /\ (intervals (exec startup (switcherPage ParsedAfterDOMContentLoaded))
      = [(CbSweep, 1000)]
      /\ option_map changeListeners
           (languageSwitcher
              (document (exec startup (switcherPage ParsedAfterDOMContentLoaded))))
         = Some []).
Proof.
  destruct (startup_initializes_once (switcherPage Parsing) eq_refl eq_refl)
    as (_ & _ & Hi & _ & _ & _ & _ & _ & Hsw).
  destruct (startup_initializes_once (switcherPage ParsedAfterDOMContentLoaded)
              eq_refl eq_refl)
    as (_ & _ & Hi' & _ & _ & _ & _ & _ & Hsw').
  split; split; assumption.
Defined.

(** ** Which records reach which observer *)

Lemma observed_body_is_childList (r : MutationRecord) :
  observed bodyObserverOptions r = isChildListMutation r.
Proof. now destruct r as [[| |] [n|]]. Qed.

Lemma filter_nil_existsb {A : Type} (f : A -> bool) (xs : list A) :
  filter f xs = [] <-> existsb f xs = false.
Proof.
  induction xs as [|x rest IH]; simpl; [tauto|].
  destruct (f x); simpl; [split; discriminate | exact IH].
Qed.

(** X13. With the observers as initRTLDetection registers them, a batch of
    mutations of the root reaches the language callback only if it holds a
    change of the language attribute, and then with those records alone;
    any other batch (class edits, other attributes) reaches nothing. A
    batch of mutations under the body reaches the widget callback exactly
    when it holds an insertion or removal of children; attribute changes
    there reach nothing. *)
Theorem delivery_reaches_the_right_observer (batch : list MutationRecord) (w : World) :
  observers w = scriptObservers ->
  run (deliver RootTarget batch) w =
    match filter isLangMutation batch with
    | [] => (w, Normal tt)
    | records => (exec (langObserverCallback records) w, Normal tt)
    end
  /\ run (deliver BodyTarget batch) w =
       if existsb isChildListMutation batch
       then (exec bodyObserverCallback w, Normal tt)
       else (w, Normal tt).
Proof.
  intros Hobs.
  assert (Hlang : filter (observed langObserverOptions) batch
                  = filter isLangMutation batch)
    by (apply filter_ext, observed_is_lang_mutation).
  assert (Hbody : filter (observed bodyObserverOptions) batch
                  = filter isChildListMutation batch)
    by (apply filter_ext, observed_body_is_childList).
  unfold run, deliver. rewrite Hobs. unfold scriptObservers.
  cbn [forEach target options callback]. rewrite Hlang, Hbody. split.
  - destruct (filter isLangMutation batch) as [|r rs]; [reflexivity|].
    unfold bind, reported, skip, ret, exec. cbn [call mutationsArg].
    reflexivity.
  - destruct (existsb isChildListMutation batch) eqn:E.
    + destruct (filter isChildListMutation batch) as [|r rs] eqn:F.
      * apply filter_nil_existsb in F. congruence.
      * unfold bind, reported, skip, ret, exec. cbn [call]. reflexivity.
    + apply filter_nil_existsb in E. rewrite E. reflexivity.
Qed.

Lemma delivery_reaches_the_right_observer_witness :
  run (deliver RootTarget [classChange; classChange]) observedWidgetPage
  = (observedWidgetPage, Normal tt)
  /\ timeouts (exec (deliver BodyTarget [classChange; childInsertion])
                 observedWidgetPage)
     = [(CbDetectAndApplyLayout, 500)].
Proof.
  destruct (delivery_reaches_the_right_observer [classChange; classChange]
              observedWidgetPage eq_refl) as [Hroot _].
  destruct (delivery_reaches_the_right_observer [classChange; childInsertion]
              observedWidgetPage eq_refl) as [_ Hbody].
  split; [exact Hroot|].
  unfold exec at 1. unfold run in Hbody. rewrite Hbody.
  vm_compute. reflexivity.
Defined.
